(** * A shallow embedding of [app.py]: the context-aware assistant

    The program is a Streamlit script over the OpenAI assistants API.  Its
    three event handlers (the "Create or Update Assistant" button, the
    "Add Email" button and the chat input) are embedded as computations in a
    small state-and-exception monad over a [World]: the Streamlit session
    state, the state of the remote service, and the trace of everything the
    script shows, prints or sends.  The handlers are those of a script that
    has found its API key and built [client]; without the key the script
    stops before any of them.

    The remote service and [json.loads] are not part of the repository; the
    first is an interface ([Client]), the second a function the development is
    parametric in.  A scripted service, an unreachable one and a decoder for
    flat JSON objects instantiate them in the examples. *)

From Stdlib Require Import List String Ascii Bool Arith NArith Lia.
Import ListNotations.
Local Open Scope string_scope.
Local Open Scope list_scope.

(** ** Text *)

(** A Python [str] is modelled by a Rocq [string] whose characters are the
    code points below 256. *)

(** [str.isspace] on one character: TAB..CR, FS..US, space, NEL and NBSP. *)
Definition isspace (c : ascii) : bool :=
  let n := N_of_ascii c in
  (((9 <=? n) && (n <=? 13)) || ((28 <=? n) && (n <=? 32))
   || (n =? 133) || (n =? 160))%N.

Fixpoint lstrip (l : list ascii) : list ascii :=
  match l with
  | [] => []
  | c :: r => if isspace c then lstrip r else l
  end.

Definition rstrip (l : list ascii) : list ascii := rev (lstrip (rev l)).

(** [s.strip()] *)
Definition strip (s : string) : string :=
  string_of_list_ascii (rstrip (lstrip (list_ascii_of_string s))).

(** Truth value of a [str]: only the empty string is false. *)
Definition truthy (s : string) : bool := negb (s =? EmptyString).

(** Truth value of a session entry that is [None] or a [str]. *)
Definition truthy_opt (o : option string) : bool :=
  match o with
  | None => false
  | Some s => truthy s
  end.

(** [s.encode('utf-8')] for code points below 256. *)
Definition encode_char (c : ascii) : list Byte.byte :=
  let n := N_of_ascii c in
  if (n <? 128)%N then [byte_of_ascii c]
  else [byte_of_ascii (ascii_of_N (192 + n / 64));
        byte_of_ascii (ascii_of_N (128 + n mod 64))].

Definition encode_utf8 (s : string) : list Byte.byte :=
  flat_map encode_char (list_ascii_of_string s).

(** The specification's wording: a text that is empty or all white space. *)
Definition blank (s : string) : bool :=
  forallb isspace (list_ascii_of_string s).

(** ** JSON values, as [json.loads] returns them *)

#[warnings="-register-all"]
Inductive json : Type :=
| JNull
| JBool (b : bool)
| JNumber (literal : string)
| JString (s : string)
| JArray (items : list json)
| JObject (members : list (string * json)).

(** Python exceptions the script can meet. *)
Inductive Exn : Type :=
| JSONDecodeError
| KeyError (key : string)
| TypeError
| AttributeError
| IndexError
| APIError (msg : string).

Fixpoint dict_get (k : string) (d : list (string * json)) : option json :=
  match d with
  | [] => None
  | (k', v) :: r => if k' =? k then Some v else dict_get k r
  end.

(** [v[k]] for a string key [k]: only a dict can be indexed by a string. *)
Definition subscript (v : json) (k : string) : Exn + json :=
  match v with
  | JObject d =>
      match dict_get k d with
      | Some x => inr x
      | None => inl (KeyError k)
      end
  | _ => inl TypeError
  end.

(** ** Data exchanged with the remote service *)

Record ToolCall : Type := mkToolCall {
  tc_id : string;
  fn_name : string;
  fn_arguments : string
}.

Record ToolOutput : Type := mkToolOutput {
  tool_call_id : string;
  output : string
}.

(** A run object: [run.id], [run.status] and
    [run.required_action.submit_tool_outputs.tool_calls]
    ([None] when [run.required_action] is [None]). *)
Record Run : Type := mkRun {
  run_id : string;
  status : string;
  required_action : option (list ToolCall)
}.

(** One block of a thread message's [content] list. *)
Inductive ContentBlock : Type :=
| TextBlock (value : string)
| ImageFileBlock (file_id : string).

Record ThreadMessage : Type := mkThreadMessage {
  tm_role : string;
  tm_content : list ContentBlock
}.

Record ParamSpec : Type := mkParam {
  p_name : string;
  p_type : string;
  p_description : string
}.

Inductive Tool : Type :=
| RetrievalTool
| FunctionTool (name description : string)
               (properties : list ParamSpec) (required : list string).

Record AssistantSpec : Type := mkAssistantSpec {
  a_name : string;
  a_instructions : string;
  a_tools : list Tool;
  a_model : string;
  a_file_ids : list string
}.

(** ** The remote service *)

Definition Reply (R A : Type) : Type := ((Exn + A) * R)%type.

(** The operations of [client] the script uses.  Each takes the state of the
    service and gives back an answer, or the exception it raised, with the new
    state.  Of the objects returned for a file, an assistant and a thread only
    the [id] is read, so these operations return it. *)
Class Client (R : Type) : Type := {
  files_create : string -> list Byte.byte -> string -> R -> Reply R string;
  assistants_create : AssistantSpec -> R -> Reply R string;
  threads_create : R -> Reply R string;
  messages_create : string -> string -> string -> R -> Reply R unit;
  runs_create : string -> string -> R -> Reply R Run;
  runs_retrieve : string -> string -> R -> Reply R Run;
  runs_submit_tool_outputs :
    string -> string -> list ToolOutput -> R -> Reply R Run;
  messages_list : string -> R -> Reply R (list ThreadMessage)
}.

(** ** Session state and trace *)

(** An entry of [st.session_state.messages]. *)
Record Message : Type := mkMessage {
  role : string;
  content : string
}.

Record Session : Type := mkSession {
  assistant_id : option string;
  thread_id : option string;
  messages : list Message;
  email_list : list string
}.

(** The session state after the initialisation at the top of the script. *)
Definition initial_session : Session := mkSession None None [] [].

Inductive ApiCall : Type :=
| FilesCreate (name : string) (data : list Byte.byte) (purpose : string)
| AssistantsCreate (spec : AssistantSpec)
| ThreadsCreate
| MessagesCreate (thread role text : string)
| RunsCreate (thread assistant : string)
| RunsRetrieve (thread run : string)
| RunsSubmit (thread run : string) (outputs : list ToolOutput)
| MessagesList (thread : string).

(** A piece of a printed line: literal text, or a formatted value. *)
Inductive Piece : Type :=
| Lit (s : string)
| Fmt (v : json).

Inductive Event : Type :=
| St_warning (text : string)
| St_error (text : string)
| St_info (text : string)
| St_success (text : string)
| St_spinner (text : string)
| St_chat (who text : string)
| Print (line : list Piece)
| Sleep (seconds : nat)
| Api (call : ApiCall).

Definition is_api (e : Event) : bool :=
  match e with
  | Api _ => true
  | _ => false
  end.

Definition is_retrieve (e : Event) : bool :=
  match e with
  | Api (RunsRetrieve _ _) => true
  | _ => false
  end.

Definition is_submit (e : Event) : bool :=
  match e with
  | Api (RunsSubmit _ _ _) => true
  | _ => false
  end.

Definition count_events (p : Event -> bool) (t : list Event) : nat :=
  List.length (filter p t).

(** ** The monad of the script *)

Section Script.

Context {R : Type} {client : Client R}.

(** [json.loads], on the argument payload of a tool call: the decoded value,
    or [None] when it raises [JSONDecodeError]. *)
Variable json_loads : string -> option json.

Record World : Type := mkWorld {
  session : Session;
  remote : R;
  trace : list Event
}.

(** How a handler ends: normally, by an uncaught exception, by [st.stop()],
    or not within the number of loop iterations it was given. *)
Inductive Outcome (A : Type) : Type :=
| Done (a : A) (w : World)
| Raised (e : Exn) (w : World)
| Stopped (w : World)
| OutOfFuel.

Arguments Done {A} a w.
Arguments Raised {A} e w.
Arguments Stopped {A} w.
Arguments OutOfFuel {A}.

Definition M (A : Type) : Type := World -> Outcome A.

Definition ret {A} (a : A) : M A := fun w => Done a w.

Definition bind {A B} (m : M A) (k : A -> M B) : M B := fun w =>
  match m w with
  | Done a w' => k a w'
  | Raised e w' => Raised e w'
  | Stopped w' => Stopped w'
  | OutOfFuel => OutOfFuel
  end.

Notation "x <- c1 ;; c2" := (bind c1 (fun x => c2))
  (at level 61, c1 at next level, right associativity).
Notation "c1 ;; c2" := (bind c1 (fun _ => c2))
  (at level 61, right associativity).

Definition raise {A} (e : Exn) : M A := fun w => Raised e w.

(** [st.stop()] *)
Definition st_stop {A} : M A := fun w => Stopped w.

Definition emit (e : Event) : M unit := fun w =>
  Done tt (mkWorld (session w) (remote w) (trace w ++ [e])).

Definition get_session : M Session := fun w => Done (session w) w.

Definition put_session (s : Session) : M unit := fun w =>
  Done tt (mkWorld s (remote w) (trace w)).

(** A call of the remote service: it is recorded, then answered. *)
Definition api {A} (c : ApiCall) (op : R -> Reply R A) : M A := fun w =>
  let (ans, r) := op (remote w) in
  let w' := mkWorld (session w) r (trace w ++ [Api c]) in
  match ans with
  | inr a => Done a w'
  | inl e => Raised e w'
  end.

(** Lifting of a Python expression that may raise. *)
Definition lift {A} (x : Exn + A) : M A :=
  match x with
  | inr a => ret a
  | inl e => raise e
  end.

(** *** Session state updates *)

Definition set_assistant_id (v : option string) : M unit :=
  s <- get_session ;;
  put_session (mkSession v (thread_id s) (messages s) (email_list s)).

Definition set_thread_id (v : option string) : M unit :=
  s <- get_session ;;
  put_session (mkSession (assistant_id s) v (messages s) (email_list s)).

Definition set_messages (v : list Message) : M unit :=
  s <- get_session ;;
  put_session (mkSession (assistant_id s) (thread_id s) v (email_list s)).

(** [st.session_state.messages.append(m)] *)
Definition append_message (m : Message) : M unit :=
  s <- get_session ;;
  put_session
    (mkSession (assistant_id s) (thread_id s) (messages s ++ [m])
               (email_list s)).

(** [st.session_state.email_list.append(a)] *)
Definition append_email (a : string) : M unit :=
  s <- get_session ;;
  put_session
    (mkSession (assistant_id s) (thread_id s) (messages s)
               (email_list s ++ [a])).

(** ** The tool executor *)

Definition success_text : string := "Email sent successfully!".

Definition mock_header : list Piece := [Lit "--- MOCK EMAIL ---"].

(** [send_email(to, subject, body)]: five printed lines, then the fixed
    result. *)
Definition send_email (to subject body : json) : M string :=
  emit (Print mock_header) ;;
  emit (Print [Lit "To: "; Fmt to]) ;;
  emit (Print [Lit "Subject: "; Fmt subject]) ;;
  emit (Print [Lit "Body: "; Fmt body]) ;;
  emit (Print [Lit "------------------"]) ;;
  ret success_text.

(** ** The assistant provisioner *)

Definition tools : list Tool :=
  [ RetrievalTool;
    FunctionTool "send_email"
      "Sends an email to a specified recipient. Use this for any user request that involves sending information to an email address."
      [ mkParam "to" "string" "The email address of the recipient.";
        mkParam "subject" "string" "The subject line of the email.";
        mkParam "body" "string" "The main content/body of the email." ]
      ["to"; "subject"; "body"] ].

Definition instructions : string :=
  "You are a helpful assistant. Answer questions ONLY based on the uploaded training content file. If the user asks something you cannot answer from the context, respond with 'I'm sorry, I can only answer questions based on the provided training content.' If the user asks you to send an email, use the `send_email` function. You must have the recipient's email address to use this function.".

Definition assistant_spec (file : string) : AssistantSpec :=
  mkAssistantSpec "Context-Restricted Assistant" instructions tools
                  "gpt-4-1106-preview" [file].

Definition empty_context_warning : string :=
  "Please provide some context before creating the assistant.".

(** The body of [if st.button("Create or Update Assistant")], for the text
    [context] of the text area. *)
Definition provision (context : string) : M unit :=
  if negb (truthy (strip context)) then
    emit (St_warning empty_context_warning)
  else
    emit (St_spinner "Creating assistant and uploading file...") ;;
    context_file <-
      api (FilesCreate "context.txt" (encode_utf8 context) "assistants")
          (files_create "context.txt" (encode_utf8 context) "assistants") ;;
    assistant <-
      api (AssistantsCreate (assistant_spec context_file))
          (assistants_create (assistant_spec context_file)) ;;
    set_assistant_id (Some assistant) ;;
    thread <- api ThreadsCreate threads_create ;;
    set_thread_id (Some thread) ;;
    set_messages [] ;;
    emit (St_success ("Assistant created with ID: `" ++ assistant ++ "`")%string) ;;
    emit (St_info
            ("A new conversation thread has been started: `" ++ thread ++ "`")%string).

(** The body of [if st.button("Add Email")], for the text [email_input]. *)
Definition add_email (email_input : string) : M unit :=
  if truthy email_input then
    append_email email_input ;;
    emit (St_success ("Added `" ++ email_input ++ "` to the list.")%string)
  else
    emit (St_warning "Please enter an email address.").

(** ** The run orchestrator *)

(** [status in ['queued', 'in_progress']] *)
Definition in_polling (st : string) : bool :=
  (st =? "queued") || (st =? "in_progress").

(** The waiting loop
    [while run.status in [...]: time.sleep(1); run = retrieve(run.id)],
    for at most [fuel] iterations; its value is the last [run]. *)
Fixpoint poll (fuel : nat) (tid : string) (run : Run) : M Run :=
  if in_polling (status run) then
    match fuel with
    | 0 => fun _ => OutOfFuel
    | S fuel' =>
        emit (Sleep 1) ;;
        run' <- api (RunsRetrieve tid (run_id run))
                    (runs_retrieve tid (run_id run)) ;;
        poll fuel' tid run'
    end
  else ret run.

Definition loads (payload : string) : Exn + json :=
  match json_loads payload with
  | Some v => inr v
  | None => inl JSONDecodeError
  end.

(** One turn of [for tool_call in ...tool_calls], on the list
    [tool_outputs] built so far. *)
Definition dispatch_one (tool_call : ToolCall) (tool_outputs : list ToolOutput)
  : M (list ToolOutput) :=
  if fn_name tool_call =? "send_email" then
    emit (St_info "Assistant is requesting to send an email...") ;;
    args <- lift (loads (fn_arguments tool_call)) ;;
    to <- lift (subscript args "to") ;;
    subject <- lift (subscript args "subject") ;;
    body <- lift (subscript args "body") ;;
    out <- send_email to subject body ;;
    ret (tool_outputs ++ [mkToolOutput (tc_id tool_call) out])
  else ret tool_outputs.

Fixpoint dispatch (calls : list ToolCall) (tool_outputs : list ToolOutput)
  : M (list ToolOutput) :=
  match calls with
  | [] => ret tool_outputs
  | tool_call :: rest =>
      outs <- dispatch_one tool_call tool_outputs ;;
      dispatch rest outs
  end.

(** [run.required_action.submit_tool_outputs.tool_calls] *)
Definition tool_calls_of (run : Run) : Exn + list ToolCall :=
  match required_action run with
  | Some calls => inr calls
  | None => inl AttributeError
  end.

(** The second waiting loop.  It tests the local [run], which the
    submission above it has not replaced. *)
Definition poll_again (fuel : nat) (tid : string) (run : Run) : M Run :=
  poll fuel tid run.

(** The [if run.status == "requires_action"] block.  Nothing after it reads
    [run]. *)
Definition tool_round (fuel : nat) (tid : string) (run : Run) : M unit :=
  if status run =? "requires_action" then
    calls <- lift (tool_calls_of run) ;;
    tool_outputs <- dispatch calls [] ;;
    api (RunsSubmit tid (run_id run) tool_outputs)
        (runs_submit_tool_outputs tid (run_id run) tool_outputs) ;;
    poll_again fuel tid run ;;
    ret tt
  else ret tt.

(** [messages.data[0].content[0].text.value] *)
Definition first_text (data : list ThreadMessage) : Exn + string :=
  match data with
  | [] => inl IndexError
  | m :: _ =>
      match tm_content m with
      | [] => inl IndexError
      | TextBlock v :: _ => inr v
      | ImageFileBlock _ :: _ => inl AttributeError
      end
  end.

(** Retrieval and display of the final response. *)
Definition final_fetch (tid : string) : M unit :=
  data <- api (MessagesList tid) (messages_list tid) ;;
  assistant_message <- lift (first_text data) ;;
  append_message (mkMessage "assistant" assistant_message) ;;
  emit (St_chat "assistant" assistant_message).

(** From the local append of the prompt to the end of the first loop. *)
Definition start_cycle (fuel : nat) (aid tid prompt : string) : M Run :=
  append_message (mkMessage "user" prompt) ;;
  emit (St_chat "user" prompt) ;;
  api (MessagesCreate tid "user" prompt)
      (messages_create tid "user" prompt) ;;
  run <- api (RunsCreate tid aid) (runs_create tid aid) ;;
  emit (St_spinner "Assistant is thinking...") ;;
  poll fuel tid run.

(** The two handles, when
    [not assistant_id or not thread_id] is false. *)
Definition handles (s : Session) : option (string * string) :=
  match assistant_id s, thread_id s with
  | Some aid, Some tid =>
      if negb (truthy aid) || negb (truthy tid) then None else Some (aid, tid)
  | _, _ => None
  end.

Definition no_assistant_error : string :=
  "Please create an assistant first using the sidebar.".

(** The body of [if prompt := st.chat_input(...)]: one prompt cycle. *)
Definition chat_input_handler (fuel : nat) (prompt : string) : M unit :=
  s <- get_session ;;
  match handles s with
  | None => emit (St_error no_assistant_error) ;; st_stop
  | Some (aid, tid) =>
      run <- start_cycle fuel aid tid prompt ;;
      tool_round fuel tid run ;;
      final_fetch tid
  end.

(** [if prompt := st.chat_input(...)]: the widget gives [None] until a text
    is submitted. *)
Definition on_chat_input (fuel : nat) (submitted : option string) : M unit :=
  match submitted with
  | Some prompt =>
      if truthy prompt then chat_input_handler fuel prompt else ret tt
  | None => ret tt
  end.

End Script.

Notation "x <- c1 ;; c2" := (bind c1 (fun x => c2))
  (at level 61, c1 at next level, right associativity).
Notation "c1 ;; c2" := (bind c1 (fun _ => c2))
  (at level 61, right associativity).

Arguments World R : clear implicits.
Arguments Outcome R A : clear implicits.
Arguments M R A : clear implicits.
Arguments Done {R A} a w.
Arguments Raised {R A} e w.
Arguments Stopped {R A} w.
Arguments OutOfFuel {R A}.
Arguments mkWorld {R} session remote trace.

(** ** A scripted remote service *)

(** The answer to one [runs.create] or [runs.retrieve]: the messages the
    assistant has posted to the thread by then, oldest first, and the run. *)
Record Step : Type := mkStep {
  step_posts : list ThreadMessage;
  step_run : Run
}.

(** A service that follows a script: the identifiers it will hand out, the
    answers it will give about the run, and the log of its one thread,
    newest message first. *)
Record Scripted : Type := mkScripted {
  sc_ids : list string;
  sc_steps : list Step;
  sc_thread : list ThreadMessage
}.

Definition exhausted {A} (r : Scripted) : Reply Scripted A :=
  (inl (APIError "script exhausted"), r).

Definition fresh_id (r : Scripted) : Reply Scripted string :=
  match sc_ids r with
  | [] => exhausted r
  | i :: ids => (inr i, mkScripted ids (sc_steps r) (sc_thread r))
  end.

Definition fresh_thread (r : Scripted) : Reply Scripted string :=
  match sc_ids r with
  | [] => exhausted r
  | i :: ids => (inr i, mkScripted ids (sc_steps r) [])
  end.

Definition post_message (who text : string) (r : Scripted)
  : Reply Scripted unit :=
  (inr tt,
   mkScripted (sc_ids r) (sc_steps r)
              (mkThreadMessage who [TextBlock text] :: sc_thread r)).

Definition next_step (r : Scripted) : Reply Scripted Run :=
  match sc_steps r with
  | [] => exhausted r
  | s :: steps =>
      (inr (step_run s),
       mkScripted (sc_ids r) steps (rev (step_posts s) ++ sc_thread r))
  end.

#[export] Instance scripted_client : Client Scripted := {
  files_create _ _ _ := fresh_id;
  assistants_create _ := fresh_id;
  threads_create := fresh_thread;
  messages_create _ who text := post_message who text;
  runs_create _ _ := next_step;
  runs_retrieve _ _ := next_step;
  runs_submit_tool_outputs _ rid _ r := (inr (mkRun rid "queued" None), r);
  messages_list _ r := (inr (sc_thread r), r)
}.

(** ** A decoder for flat JSON objects *)

(** [{"k": "v", ...}] with string values without escapes: the payloads of the
    examples.  Anything else is rejected.  Of a repeated key the last value
    is kept, as [json.loads] does. *)
Module Flat.

Definition quote : ascii := "034"%char.

(** JSON white space: space, TAB, LF, CR. *)
Definition ws (c : ascii) : bool :=
  ((c =? " ") || (c =? "009") || (c =? "010") || (c =? "013"))%char.

Fixpoint skip_ws (l : list ascii) : list ascii :=
  match l with
  | c :: r => if ws c then skip_ws r else l
  | [] => []
  end.

(** The characters up to the closing quote, and what follows it. *)
Fixpoint quoted (l : list ascii) : option (string * list ascii) :=
  match l with
  | [] => None
  | c :: r =>
      if (c =? quote)%char then Some (EmptyString, r)
      else if (c =? "\")%char then None
      else match quoted r with
           | Some (s, rest) => Some (String c s, rest)
           | None => None
           end
  end.

Definition str_lit (l : list ascii) : option (string * list ascii) :=
  match skip_ws l with
  | c :: r => if (c =? quote)%char then quoted r else None
  | [] => None
  end.

Definition expect (c : ascii) (l : list ascii) : option (list ascii) :=
  match skip_ws l with
  | c' :: r => if (c' =? c)%char then Some r else None
  | [] => None
  end.

(** The members after the opening brace, at most [fuel] of them. *)
Fixpoint members (fuel : nat) (l : list ascii)
  : option (list (string * json)) :=
  match fuel with
  | 0 => None
  | S fuel' =>
      match str_lit l with
      | None => None
      | Some (k, l1) =>
          match expect ":" l1 with
          | None => None
          | Some l2 =>
              match str_lit l2 with
              | None => None
              | Some (v, l3) =>
                  match skip_ws l3 with
                  | c :: l4 =>
                      if (c =? "}")%char then
                        match skip_ws l4 with
                        | [] => Some [(k, JString v)]
                        | _ :: _ => None
                        end
                      else if (c =? ",")%char then
                        match members fuel' l4 with
                        | Some d =>
                            if existsb (fun kv => fst kv =? k) d then Some d
                            else Some ((k, JString v) :: d)
                        | None => None
                        end
                      else None
                  | [] => None
                  end
              end
          end
      end
  end.

Definition loads (s : string) : option json :=
  let l := list_ascii_of_string s in
  match expect "{" l with
  | None => None
  | Some l1 =>
      match skip_ws l1 with
      | c :: l2 =>
          if (c =? "}")%char then
            match skip_ws l2 with
            | [] => Some (JObject [])
            | _ :: _ => None
            end
          else option_map JObject (members (List.length l) l1)
      | [] => None
      end
  end.

End Flat.

(** A service that cannot be reached: every call raises. *)
Definition unreachable {A} (r : unit) : Reply unit A :=
  (inl (APIError "Connection error."), r).

#[export] Instance offline_client : Client unit := {
  files_create _ _ _ := unreachable;
  assistants_create _ := unreachable;
  threads_create := unreachable;
  messages_create _ _ _ := unreachable;
  runs_create _ _ := unreachable;
  runs_retrieve _ _ := unreachable;
  runs_submit_tool_outputs _ _ _ := unreachable;
  messages_list _ := unreachable
}.

(** * Vocabulary of the statements *)

Section Vocabulary.

Context {R : Type} {client : Client R}.
Variable json_loads : string -> option json.

(** The world a handler ends in, when it ends. *)
Definition world_of {A} (o : Outcome R A) : option (World R) :=
  match o with
  | Done _ w | Raised _ w | Stopped w => Some w
  | OutOfFuel => None
  end.

(** The events a handler has added. *)
Definition added (w w' : World R) (evs : list Event) : Prop :=
  trace w' = trace w ++ evs.

(** [post Q m]: however [m] ends, its first and last worlds are related
    by [Q]. *)
Definition post {A} (Q : World R -> World R -> Prop) (m : M R A) : Prop :=
  forall w w', world_of (m w) = Some w' -> Q w w'.

Definition same_session (w w' : World R) : Prop := session w' = session w.

(** Only events outside [p] were added. *)
Definition quiet (p : Event -> bool) (w w' : World R) : Prop :=
  exists evs, added w w' evs /\ count_events p evs = 0.

(** No remote call was made and nothing else changed but the trace. *)
Definition local_only (w w' : World R) : Prop :=
  session w' = session w /\ remote w' = remote w /\ quiet is_api w w'.

Definition is_send_email (tc : ToolCall) : bool := fn_name tc =? "send_email".

Definition email_events (to subject body : json) : list Event :=
  [ Print mock_header;
    Print [Lit "To: "; Fmt to];
    Print [Lit "Subject: "; Fmt subject];
    Print [Lit "Body: "; Fmt body];
    Print [Lit "------------------"] ].

(** The three values the dispatch reads from a payload, in the order it
    reads them, or the first exception on the way. *)
Definition decode (tc : ToolCall) : Exn + (json * json * json) :=
  match loads json_loads (fn_arguments tc) with
  | inl e => inl e
  | inr args =>
      match subscript args "to" with
      | inl e => inl e
      | inr to =>
          match subscript args "subject" with
          | inl e => inl e
          | inr subject =>
              match subscript args "body" with
              | inl e => inl e
              | inr body => inr (to, subject, body)
              end
          end
      end
  end.

Definition info_event : Event :=
  St_info "Assistant is requesting to send an email...".

(** What one tool call adds to the trace when its turn completes. *)
Definition call_events (tc : ToolCall) : list Event :=
  if is_send_email tc then
    match decode tc with
    | inr (to, subject, body) => info_event :: email_events to subject body
    | inl _ => []
    end
  else [].

Definition output_of (tc : ToolCall) : ToolOutput :=
  mkToolOutput (tc_id tc) success_text.

(** Every request named [send_email] carries a payload the dispatch can
    read. *)
Definition readable (tc : ToolCall) : Prop :=
  is_send_email tc = true -> exists a, decode tc = inr a.

Definition with_message (m : Message) (s : Session) : Session :=
  mkSession (assistant_id s) (thread_id s) (messages s ++ [m]) (email_list s).

Definition user_message (prompt : string) : Message :=
  mkMessage "user" prompt.

Definition assistant_message (text : string) : Message :=
  mkMessage "assistant" text.

Definition submits_le (n : nat) (w w' : World R) : Prop :=
  exists evs, added w w' evs /\ count_events is_submit evs <= n.

(** What a successful provisioning adds to the trace. *)
Definition provision_events (context file assistant thread : string)
  : list Event :=
  [ St_spinner "Creating assistant and uploading file...";
    Api (FilesCreate "context.txt" (encode_utf8 context) "assistants");
    Api (AssistantsCreate (assistant_spec file));
    Api ThreadsCreate;
    St_success ("Assistant created with ID: `" ++ assistant ++ "`")%string;
    St_info ("A new conversation thread has been started: `"
             ++ thread ++ "`")%string ].

(** The value has no member [k]. *)
Definition lacks_key (v : json) (k : string) : Prop :=
  match v with
  | JObject d => dict_get k d = None
  | _ => True
  end.

(** In the specification's words: not valid JSON, or one of the three keys
    missing. *)
Definition unreadable (payload : string) : Prop :=
  json_loads payload = None
  \/ exists v, json_loads payload = Some v
              /\ (lacks_key v "to" \/ lacks_key v "subject"
                  \/ lacks_key v "body").

Definition is_mock_header (e : Event) : bool :=
  match e with
  | Print [Lit s] => s =? "--- MOCK EMAIL ---"
  | _ => false
  end.

End Vocabulary.

(** ** Runs against a script *)

(** The events before the first loop. *)
Definition opening (aid tid prompt : string) : list Event :=
  [ St_chat "user" prompt;
    Api (MessagesCreate tid "user" prompt);
    Api (RunsCreate tid aid);
    St_spinner "Assistant is thinking..." ].

(** One turn of the loop on the run of step [st]. *)
Definition query_of (tid : string) (st : Step) : list Event :=
  [Sleep 1; Api (RunsRetrieve tid (run_id (step_run st)))].

Definition polling_step (st : Step) : Prop :=
  in_polling (status (step_run st)) = true.

(** The thread after the service has gone through [steps]. *)
Definition posted (steps : list Step) (thread : list ThreadMessage)
  : list ThreadMessage :=
  rev (flat_map step_posts steps) ++ thread.

(** ** Sample data *)

Module Examples.

(** [s] between double quotes. *)
Definition dq (s : string) : string :=
  String Flat.quote (s ++ String Flat.quote EmptyString)%string.

(** The payload [{"to": "a@example.com", "subject": "S", "body": "B"}]. *)
Definition mail_payload : string :=
  ("{" ++ dq "to" ++ ": " ++ dq "a@example.com" ++ ", "
       ++ dq "subject" ++ ": " ++ dq "S" ++ ", "
       ++ dq "body" ++ ": " ++ dq "B" ++ "}")%string.

(** The same without the member [body]. *)
Definition short_payload : string :=
  ("{" ++ dq "to" ++ ": " ++ dq "a@example.com" ++ ", "
       ++ dq "subject" ++ ": " ++ dq "S" ++ "}")%string.

Definition mail_call : ToolCall := mkToolCall "call_1" "send_email" mail_payload.

Definition short_call : ToolCall :=
  mkToolCall "call_3" "send_email" short_payload.

Definition other_call : ToolCall := mkToolCall "call_2" "get_weather" "{}".

Definition run_in (st : string) : Run := mkRun "run_1" st None.

Definition run_asking (calls : list ToolCall) : Run :=
  mkRun "run_1" "requires_action" (Some calls).

Definition reply_step (text : string) : Step :=
  mkStep [mkThreadMessage "assistant" [TextBlock text]] (run_in "completed").

Definition ready : Session := mkSession (Some "asst_1") (Some "thread_1") [] [].

Definition world (s : Session) (ids : list string) (steps : list Step)
  : World Scripted :=
  mkWorld s (mkScripted ids steps []) [].

Definition ask : string := "Send S to a@example.com".

(** A run that asks for one email, and after the submission is queued, in
    progress, and completed with a reply. *)
Definition resumed : World Scripted :=
  world ready []
        [ mkStep [] (run_in "queued");
          mkStep [] (run_asking [mail_call]);
          mkStep [] (run_in "queued");
          mkStep [] (run_in "in_progress");
          reply_step "The email has been sent." ].

(** A new session, before any provisioning. *)
Definition fresh : World Scripted :=
  world initial_session ["file_1"; "asst_1"; "thread_1"] [].

(** A run that asks for one email and for something else. *)
Definition asking : World Scripted :=
  world ready []
        [ mkStep [] (run_in "queued");
          mkStep [] (run_asking [mail_call; other_call]);
          reply_step "The email has been sent." ].

(** A run that fails while the first loop waits. *)
Definition failing : World Scripted :=
  world ready [] [ mkStep [] (run_in "queued"); mkStep [] (run_in "failed") ].

(** A run that answers at once. *)
Definition answering : World Scripted :=
  world ready []
        [ mkStep [] (run_in "queued"); mkStep [] (run_in "in_progress");
          reply_step "It is in the FAQ." ].

(** A run that asks for an email with a payload without [body]. *)
Definition asking_badly : World Scripted :=
  world ready []
        [ mkStep [] (run_in "queued");
          mkStep [] (run_asking [mail_call; short_call]) ].

(** The world the handler leaves when started in [answering]. *)
Definition answered : World Scripted :=
  Eval vm_compute in
    match world_of (chat_input_handler Flat.loads 10 ask answering) with
    | Some w' => w'
    | None => answering
    end.

(** C9 as stated: every part of the session state is rebuilt, so that
    nothing is left of the former state. *)
Definition rebuilt_fully (after : Session) : Prop :=
  exists a t,
    after = mkSession (Some a) (Some t) (messages initial_session)
                      (email_list initial_session).

(** The session after an address has been added, and after the
    provisioner has then run. *)
Definition with_recipient : World Scripted :=
  mkWorld (mkSession None None [] ["a@example.com"]) (remote fresh)
          [St_success "Added `a@example.com` to the list."].

Definition reprovisioned : World Scripted :=
  mkWorld (mkSession (Some "asst_1") (Some "thread_1") [] ["a@example.com"])
          (mkScripted [] [] [])
          (trace with_recipient
           ++ provision_events "FAQ" "file_1" "asst_1" "thread_1").

End Examples.

(** * The rest of the script *)

(** ** The session state between two runs of the script *)

(** [st.session_state] as a run of the script finds it: each of the four
    keys is there or not. *)
Record RawSession : Type := mkRaw {
  raw_assistant_id : option (option string);
  raw_thread_id : option (option string);
  raw_messages : option (list Message);
  raw_email_list : option (list string)
}.

Definition or_default {A} (d : A) (o : option A) : A :=
  match o with
  | Some a => a
  | None => d
  end.

(** The four [if key not in st.session_state: ...] statements. *)
Definition init_session_state (raw : RawSession) : Session :=
  mkSession (or_default None (raw_assistant_id raw))
            (or_default None (raw_thread_id raw))
            (or_default [] (raw_messages raw))
            (or_default [] (raw_email_list raw)).

(** The state of a new browser session, and the state a run leaves. *)
Definition empty_state : RawSession := mkRaw None None None None.

Definition stored (s : Session) : RawSession :=
  mkRaw (Some (assistant_id s)) (Some (thread_id s)) (Some (messages s))
        (Some (email_list s)).

(** ** One run of the script *)

(** What the widgets give in one run: the secret if there is one, the text
    of the context area, whether each button was clicked, the text of the
    email field, and the text submitted in the chat input. *)
Record Inputs : Type := mkInputs {
  in_secret : option string;
  in_context : string;
  in_create : bool;
  in_email : string;
  in_add : bool;
  in_chat : option string
}.

(** What a run puts on the page, the fixed furniture (title, headers, the
    widgets themselves) left out: the events of the handlers, and the two
    elements of the list of addresses. *)
Inductive PageItem : Type :=
| Ev (e : Event)
| St_write (text : string)
| St_json (value : list string).

Definition missing_key_error : string :=
  "`OPENAI_API_KEY` not found in secrets.toml. Please add it.".

Definition key_loaded : string := "OpenAI API key loaded from secrets.".

(** [with st.chat_message(message["role"]): st.markdown(message["content"])] *)
Definition bubble (m : Message) : Event := St_chat (role m) (content m).

(** [for message in st.session_state.messages: ...] *)
Definition history (msgs : list Message) : list Event := map bubble msgs.

(** [if st.session_state.email_list: st.write(...); st.json(...)] *)
Definition email_display (l : list string) : list PageItem :=
  match l with
  | [] => []
  | _ :: _ => [St_write "Available Emails:"; St_json l]
  end.

Definition is_chat (e : Event) : bool :=
  match e with
  | St_chat _ _ => true
  | _ => false
  end.

Definition is_sleep (e : Event) : bool :=
  match e with
  | Sleep _ => true
  | _ => false
  end.

Definition is_print (e : Event) : bool :=
  match e with
  | Print _ => true
  | _ => false
  end.

(** The calls the provisioner may make. *)
Definition is_creation (e : Event) : bool :=
  match e with
  | Api (FilesCreate _ _ _) | Api (AssistantsCreate _) | Api ThreadsCreate =>
      true
  | _ => false
  end.

(** What the "Add Email" button shows for the text [a]. *)
Definition add_email_event (a : string) : Event :=
  if truthy a then St_success ("Added `" ++ a ++ "` to the list.")%string
  else St_warning "Please enter an email address.".

(** The session with the addresses [l] added to its list. *)
Definition with_emails (l : list string) (s : Session) : Session :=
  mkSession (assistant_id s) (thread_id s) (messages s) (email_list s ++ l).

(** The first of the keys [to], [subject], [body], in the order the
    dispatch reads them, that the dict [d] does not have. *)
Definition first_missing (d : list (string * json)) : option string :=
  match dict_get "to" d with
  | None => Some "to"
  | Some _ =>
      match dict_get "subject" d with
      | None => Some "subject"
      | Some _ =>
          match dict_get "body" d with
          | None => Some "body"
          | Some _ => None
          end
      end
  end.

(** A decoded payload that is not a dict. *)
Definition not_a_dict (v : json) : Prop :=
  match v with
  | JObject _ => False
  | _ => True
  end.

(** The chat bubbles among the items of a page. *)
Definition bubbles (items : list PageItem) : list Event :=
  flat_map (fun i => match i with
                     | Ev e => if is_chat e then [e] else []
                     | _ => []
                     end) items.

(** The remote calls of a whole prompt cycle, in order: the message, the
    run, a retrieve query for each of [rids], the submission if there is
    one, the list of messages. *)
Definition cycle_calls (aid tid prompt : string) (rids : list string)
           (submission : list Event) : list Event :=
  [Api (MessagesCreate tid "user" prompt); Api (RunsCreate tid aid)]
  ++ map (fun rid => Api (RunsRetrieve tid rid)) rids
  ++ submission
  ++ [Api (MessagesList tid)].

(** No submission, or one, to the thread [tid]. *)
Definition one_submission (tid : string) (l : list Event) : Prop :=
  l = [] \/ exists rid outs, l = [Api (RunsSubmit tid rid outs)].

(** The remote calls among the items of a page. *)
Definition page_calls (items : list PageItem) : list Event :=
  flat_map (fun i => match i with
                     | Ev e => if is_api e then [e] else []
                     | _ => []
                     end) items.

(** The inputs and the stored state of a run in which no handler gets as
    far as the service: there is no secret; or the context is blank or its
    button not clicked, and no prompt is submitted or a handle is missing. *)
Definition stays_local (inp : Inputs) (raw : RawSession) : Prop :=
  in_secret inp = None
  \/ ((in_create inp = false \/ blank (in_context inp) = true)
      /\ (truthy_opt (in_chat inp) = false
          \/ handles (init_session_state raw) = None)).

Section WholeScript.

Context {R : Type} {client : Client R}.
Variable json_loads : string -> option json.

Record Page : Type := mkPage {
  pg_session : Session;
  pg_remote : R;
  pg_items : list PageItem
}.

(** How a run of the script ends: at its last line, at an [st.stop()], by
    an uncaught exception, or not at all. *)
Inductive Ended : Type :=
| Finished (p : Page)
| Halted (p : Page)
| Crashed (e : Exn) (p : Page)
| Hung.

Definition show (items : list PageItem) (p : Page) : Page :=
  mkPage (pg_session p) (pg_remote p) (pg_items p ++ items).

(** The page after a handler has run from it and ended in [w]. *)
Definition absorb (p : Page) (w : World R) : Page :=
  mkPage (session w) (remote w) (pg_items p ++ map Ev (trace w)).

(** A handler at its place in the script: an exception or a stop ends the
    run, otherwise the script goes on with [k]. *)
Definition run_handler (h : M R unit) (p : Page) (k : Page -> Ended)
  : Ended :=
  match h (mkWorld (pg_session p) (pg_remote p) []) with
  | Done _ w => k (absorb p w)
  | Raised e w => Crashed e (absorb p w)
  | Stopped w => Halted (absorb p w)
  | OutOfFuel => Hung
  end.

(** [if st.button(...): ...] *)
Definition when_clicked (clicked : bool) (h : M R unit) : M R unit :=
  if clicked then h else ret tt.

(** The script from its first line to its last, on the state [raw] the
    session is in and the service in state [r]. *)
Definition script (fuel : nat) (inp : Inputs) (raw : RawSession) (r : R)
  : Ended :=
  let p0 := mkPage (init_session_state raw) r [] in
  match in_secret inp with
  | None => Halted (show [Ev (St_error missing_key_error)] p0)
  | Some _ =>
      let p1 := show [Ev (St_success key_loaded)] p0 in
      run_handler (when_clicked (in_create inp) (provision (in_context inp)))
        p1 (fun p2 =>
      run_handler (when_clicked (in_add inp) (add_email (in_email inp)))
        p2 (fun p3 =>
      let p4 := show (email_display (email_list (pg_session p3))) p3 in
      let p5 := show (map Ev (history (messages (pg_session p4)))) p4 in
      run_handler (on_chat_input json_loads fuel (in_chat inp)) p5 Finished))
  end.

(** The page a run ends with, when it ends. *)
Definition page_of (o : Ended) : option Page :=
  match o with
  | Finished p | Halted p | Crashed _ p => Some p
  | Hung => None
  end.

(** The "Add Email" button clicked once for each text of [inputs]. *)
Fixpoint add_all (inputs : list string) : M R unit :=
  match inputs with
  | [] => ret tt
  | a :: rest => add_email a ;; add_all rest
  end.

(** The events of [n] turns of the waiting loop, asking for the runs
    [rids] in turn. *)
Definition turns (tid : string) (rids : list string) : list Event :=
  flat_map (fun rid => [Sleep 1; Api (RunsRetrieve tid rid)]) rids.

(** The queries [rids], asked in turn of the service in state [r], are
    each for the run last received: the first for [run], the next for the
    run the service answered with, and so on; a query the service answers
    by an exception is the last one. *)
Fixpoint follows (tid : string) (run : Run) (r : R) (rids : list string)
  : Prop :=
  match rids with
  | [] => True
  | rid :: rest =>
      rid = run_id run
      /\ in_polling (status run) = true
      /\ match runs_retrieve tid rid r with
         | (inr run', r') => follows tid run' r' rest
         | (inl _, _) => rest = []
         end
  end.

(** The handles and the list of addresses are those of [w]. *)
Definition same_handles (w w' : World R) : Prop :=
  assistant_id (session w') = assistant_id (session w)
  /\ thread_id (session w') = thread_id (session w)
  /\ email_list (session w') = email_list (session w).

(** The session is the same and no chat bubble was shown. *)
Definition calm (w w' : World R) : Prop :=
  session w' = session w /\ quiet is_chat w w'.

(** The chat bubbles shown between [w] and [w'] are those of the messages
    appended to the transcript in between, in the same order. *)
Definition bubbles_agree (w w' : World R) : Prop :=
  exists evs new,
    trace w' = trace w ++ evs
    /\ messages (session w') = messages (session w) ++ new
    /\ filter is_chat evs = history new.

(** [m] never ends by [st.stop()]. *)
Definition never_stops {A} (m : M R A) : Prop :=
  forall w w', m w <> Stopped w'.

(** The service never reports a run outside the polling set. *)
Definition always_polling : Prop :=
  forall tid rid (r : R),
  exists run r', runs_retrieve tid rid r = (inr run, r')
                 /\ in_polling (status run) = true.

End WholeScript.

Arguments Page R : clear implicits.
Arguments Ended R : clear implicits.
Arguments mkPage {R} pg_session pg_remote pg_items.
Arguments Finished {R} p.
Arguments Halted {R} p.
Arguments Crashed {R} e p.
Arguments Hung {R}.

(** ** A service whose run stays queued *)

(** Its state counts the questions asked about the run. *)
Definition still_queued (n : nat) : Reply nat Run :=
  (inr (mkRun "run_1" "queued" None), S n).

#[export] Instance stalled_client : Client nat := {
  files_create _ _ _ n := (inr "file_1", n);
  assistants_create _ n := (inr "asst_1", n);
  threads_create n := (inr "thread_1", n);
  messages_create _ _ _ n := (inr tt, n);
  runs_create _ _ := still_queued;
  runs_retrieve _ _ := still_queued;
  runs_submit_tool_outputs _ _ _ := still_queued;
  messages_list _ n := (inr [], n)
}.

(** ** Local transcript and remote thread *)

(** A thread message as a transcript entry, when it is one text. *)
Definition entry (tm : ThreadMessage) : option Message :=
  match tm_content tm with
  | [TextBlock v] => Some (mkMessage (tm_role tm) v)
  | _ => None
  end.

(** The transcript is the thread, oldest message first. *)
Definition mirrors (thread : list ThreadMessage) (msgs : list Message)
  : Prop :=
  map entry (rev thread) = map Some msgs.

(** ** More sample data *)

Module MoreExamples.

Import Examples.

(** The world a computation on the scripted service ends in. *)
Definition end_world {A} (o : Outcome Scripted A) (d : World Scripted)
  : World Scripted :=
  match world_of o with
  | Some w => w
  | None => d
  end.

(** [Flat.loads], and the empty list. *)
Definition loads_more (s : string) : option json :=
  if s =? "[]" then Some (JArray []) else Flat.loads s.

(** A session in the middle of a conversation. *)
Definition chatting : Session :=
  mkSession (Some "asst_0") (Some "thread_0")
            [user_message "hi"; assistant_message "hello"]
            ["a@example.com"].

(** The service can name a file and an assistant, but no thread. *)
Definition short_of_ids : World Scripted :=
  mkWorld chatting (mkScripted ["file_1"; "asst_1"] [] []) [].

(** The service can name all three, and then answers one prompt. *)
Definition renewing : World Scripted :=
  mkWorld chatting
          (mkScripted ["file_1"; "asst_1"; "thread_1"]
                      [ mkStep [] (run_in "queued");
                        reply_step "It is in the FAQ." ] [])
          [].

Definition renewed : World Scripted :=
  Eval vm_compute in end_world (provision "FAQ" renewing) renewing.

Definition renewed_and_asked : World Scripted :=
  Eval vm_compute in
    end_world (chat_input_handler Flat.loads 10 ask renewed) renewed.

(** The first loop entered on a queued run, two answers ahead, each
    under an identifier of its own. *)
Definition waiting : World Scripted :=
  world ready []
        [ mkStep [] (mkRun "run_2" "in_progress" None);
          mkStep [mkThreadMessage "assistant" [TextBlock "It is in the FAQ."]]
                 (mkRun "run_3" "completed" None) ].

Definition waited : World Scripted :=
  Eval vm_compute in
    end_world (poll 10 "thread_1" (run_in "queued") waiting) waiting.

(** The service whose run stays queued, at its start. *)
Definition stalled : World nat := mkWorld ready 0 [].

(** Three payloads that cannot be read. *)
Definition garbled_call : ToolCall :=
  mkToolCall "call_4" "send_email" "not json".

Definition list_call : ToolCall := mkToolCall "call_5" "send_email" "[]".

Definition empty_call : ToolCall := mkToolCall "call_6" "send_email" "{}".

(** Threads whose newest message cannot be read as a text. *)
Definition thread_world (thread : list ThreadMessage) : World Scripted :=
  mkWorld ready (mkScripted [] [] thread) [].

Definition bare_message : ThreadMessage := mkThreadMessage "assistant" [].

Definition picture_message : ThreadMessage :=
  mkThreadMessage "assistant"
                  [ImageFileBlock "file_9"; TextBlock "See the picture."].

(** What the widgets give: nothing, a prompt, a new address. *)
Definition no_input : Inputs :=
  mkInputs (Some "sk-test") "FAQ" false EmptyString false None.

Definition locked_out : Inputs :=
  mkInputs None "FAQ" true "b@example.com" true (Some ask).

Definition asking_input : Inputs :=
  mkInputs (Some "sk-test") "FAQ" false EmptyString false (Some ask).

Definition adding_input : Inputs :=
  mkInputs (Some "sk-test") "FAQ" false "b@example.com" true None.

(** The service that will answer one prompt. *)
Definition answerer : Scripted :=
  mkScripted []
             [ mkStep [] (run_in "queued"); reply_step "It is in the FAQ." ]
             [].

(** The page of the run that asks, from the session [chatting]. *)
Definition asked_page : Page Scripted :=
  Eval vm_compute in
    match page_of (script Flat.loads 10 asking_input (stored chatting)
                          answerer) with
    | Some p => p
    | None => mkPage chatting answerer []
    end.

Definition added_page : Page Scripted :=
  Eval vm_compute in
    match page_of (script Flat.loads 10 adding_input (stored chatting)
                          answerer) with
    | Some p => p
    | None => mkPage chatting answerer []
    end.

(** A run that asks for an email it cannot read, and the run of the
    next prompt, which answers. *)
Definition stumbling : World Scripted :=
  world ready []
        [ mkStep [] (run_in "queued");
          mkStep [] (run_asking [short_call]);
          mkStep [] (run_in "queued");
          reply_step "It is in the FAQ." ].

Definition stumbled : World Scripted :=
  Eval vm_compute in
    end_world (chat_input_handler Flat.loads 10 ask stumbling) stumbling.

Definition recovered : World Scripted :=
  Eval vm_compute in
    end_world (chat_input_handler Flat.loads 10 "And now?" stumbled) stumbled.

(** A first visit: a blank context sent, an address added and a prompt
    submitted, all before any assistant exists. *)
Definition first_visit : Inputs :=
  mkInputs (Some "sk-test") "   " true "b@example.com" true (Some ask).

(** Where the cycle started in [asking] ends. *)
Definition asked_for_tools : World Scripted :=
  Eval vm_compute in
    end_world (chat_input_handler Flat.loads 10 ask asking) asking.

End MoreExamples.

(** * Properties *)

(** ** White space *)

Lemma lstrip_nil_iff (l : list ascii) :
  lstrip l = [] <-> forallb isspace l = true.
Proof.
  induction l as [|c l IH]; simpl.
  - tauto.
  - destruct (isspace c); simpl.
    + exact IH.
    + split; discriminate.
Qed.

Lemma lstrip_head (l : list ascii) (c : ascii) (r : list ascii) :
  lstrip l = c :: r -> isspace c = false.
Proof.
  induction l as [|a l IH]; simpl.
  - discriminate.
  - destruct (isspace a) eqn:E.
    + exact IH.
    + intros H; injection H as -> _. exact E.
Qed.

Lemma forallb_rev {A} (p : A -> bool) (l : list A) :
  forallb p (rev l) = forallb p l.
Proof.
  induction l as [|a l IH]; simpl.
  - reflexivity.
  - rewrite forallb_app, IH. simpl. rewrite andb_true_r. apply andb_comm.
Qed.

Lemma rstrip_nil_iff (l : list ascii) :
  rstrip l = [] <-> forallb isspace l = true.
Proof.
  unfold rstrip. rewrite <- (forallb_rev isspace l), <- lstrip_nil_iff.
  split; intros H.
  - apply (f_equal (@rev ascii)) in H. rewrite rev_involutive in H. exact H.
  - rewrite H. reflexivity.
Qed.

Lemma string_of_list_nil_iff (l : list ascii) :
  string_of_list_ascii l = EmptyString <-> l = [].
Proof.
  destruct l; simpl; split; intros H; try reflexivity; discriminate.
Qed.

(** [context.strip()] is empty exactly for a blank [context]. *)
Lemma strip_blank_iff (s : string) : strip s = EmptyString <-> blank s = true.
Proof.
  unfold strip, blank. rewrite string_of_list_nil_iff, rstrip_nil_iff.
  split; intros H.
  - apply lstrip_nil_iff.
    destruct (lstrip (list_ascii_of_string s)) as [|c r] eqn:E.
    + reflexivity.
    + apply lstrip_head in E. simpl in H. rewrite E in H. discriminate.
  - apply lstrip_nil_iff in H. rewrite H. reflexivity.
Qed.

Lemma truthy_strip (s : string) : truthy (strip s) = negb (blank s).
Proof.
  unfold truthy. f_equal.
  destruct (blank s) eqn:B.
  - apply strip_blank_iff in B. rewrite B. reflexivity.
  - apply String.eqb_neq. intros E. apply strip_blank_iff in E. congruence.
Qed.

(** ** Reasoning about handlers *)

Section Handlers.

Context {R : Type} {client : Client R}.
Variable json_loads : string -> option json.

Lemma bind_done {A B} (m : M R A) (k : A -> M R B) w a w1 :
  m w = Done a w1 -> bind m k w = k a w1.
Proof. unfold bind. intros ->. reflexivity. Qed.

Lemma bind_raised {A B} (m : M R A) (k : A -> M R B) w e w1 :
  m w = Raised e w1 -> bind m k w = Raised e w1.
Proof. unfold bind. intros ->. reflexivity. Qed.

Lemma bind_done_inv {A B} (m : M R A) (k : A -> M R B) w b w' :
  bind m k w = Done b w' ->
  exists a w1, m w = Done a w1 /\ k a w1 = Done b w'.
Proof.
  unfold bind. destruct (m w) as [a w1|e w1|w1|]; try discriminate.
  intros H. exists a, w1. split; [reflexivity | exact H].
Qed.

Lemma post_bind {A B} (Q1 Q2 Q : World R -> World R -> Prop)
      (m : M R A) (k : A -> M R B) :
  post Q1 m -> (forall a, post Q2 (k a)) ->
  (forall w w1, Q1 w w1 -> Q w w1) ->
  (forall w w1 w2, Q1 w w1 -> Q2 w1 w2 -> Q w w2) ->
  post Q (bind m k).
Proof.
  intros Hm Hk Hsub Hcomp w w'. unfold bind.
  specialize (Hm w).
  destruct (m w) as [a w1|e w1|w1|]; simpl; intros H.
  - apply (Hcomp w w1 w'); [apply Hm; reflexivity | apply (Hk a); exact H].
  - injection H as <-. apply Hsub, Hm. reflexivity.
  - injection H as <-. apply Hsub, Hm. reflexivity.
  - discriminate.
Qed.

(** For a relation that is reflexive and transitive. *)
Lemma post_seq {A B} (Q : World R -> World R -> Prop)
      (m : M R A) (k : A -> M R B) :
  (forall w w1 w2, Q w w1 -> Q w1 w2 -> Q w w2) ->
  post Q m -> (forall a, post Q (k a)) -> post Q (bind m k).
Proof.
  intros Htrans Hm Hk. apply (post_bind Q Q Q); auto.
Qed.

(** *** Two frames: the session, and the remote calls of a kind *)

Lemma count_events_app p (a b : list Event) :
  count_events p (a ++ b) = count_events p a + count_events p b.
Proof. unfold count_events. rewrite filter_app, length_app. reflexivity. Qed.

Lemma same_session_trans (w w1 w2 : World R) :
  same_session w w1 -> same_session w1 w2 -> same_session w w2.
Proof. unfold same_session. congruence. Qed.

Lemma quiet_refl p (w : World R) : quiet p w w.
Proof. exists []. split; [unfold added; now rewrite app_nil_r | reflexivity]. Qed.

Lemma quiet_trans p (w w1 w2 : World R) : quiet p w w1 -> quiet p w1 w2 -> quiet p w w2.
Proof.
  intros (e1 & H1 & C1) (e2 & H2 & C2). exists (e1 ++ e2). split.
  - unfold added in *. rewrite H2, H1, app_assoc. reflexivity.
  - rewrite count_events_app, C1, C2. reflexivity.
Qed.

Lemma local_only_refl (w : World R) : local_only w w.
Proof. repeat split. apply quiet_refl. Qed.

Lemma local_only_trans (w w1 w2 : World R) :
  local_only w w1 -> local_only w1 w2 -> local_only w w2.
Proof.
  intros (S1 & R1 & Q1) (S2 & R2 & Q2). repeat split; try congruence.
  eapply quiet_trans; eassumption.
Qed.

Lemma post_ret {A} (Q : World R -> World R -> Prop) (a : A) :
  (forall w, Q w w) -> post Q (ret a).
Proof. intros Hr w w' H. injection H as <-. apply Hr. Qed.

Lemma post_lift {A} (Q : World R -> World R -> Prop) (x : Exn + A) :
  (forall w, Q w w) -> post Q (lift x).
Proof. intros Hr w w' H. destruct x; injection H as <-; apply Hr. Qed.

Lemma quiet_emit p e : p e = false -> post (R := R) (quiet p) (emit e).
Proof.
  intros Hp w w' H. injection H as <-. exists [e]. split.
  - reflexivity.
  - unfold count_events. simpl. rewrite Hp. reflexivity.
Qed.

Lemma local_emit e : is_api e = false -> post (R := R) local_only (emit e).
Proof.
  intros Hp w w' H. pose proof (quiet_emit is_api e Hp w w' H) as Q.
  injection H as <-. repeat split. exact Q.
Qed.

Lemma quiet_api {A} p c (op : R -> Reply R A) :
  p (Api c) = false -> post (R := R) (quiet p) (api c op).
Proof.
  intros Hp w w'. unfold api. destruct (op (remote w)) as [[e|a] r]; simpl;
    intros H; injection H as <-; exists [Api c]; (split; [reflexivity|]);
    unfold count_events; simpl; rewrite Hp; reflexivity.
Qed.

Lemma session_emit e : post (R := R) same_session (emit e).
Proof. intros w w' H. injection H as <-. reflexivity. Qed.

Lemma session_api {A} c (op : R -> Reply R A) : post (R := R) same_session (api c op).
Proof.
  intros w w'. unfold api. destruct (op (remote w)) as [[e|a] r]; simpl;
    intros H; injection H as <-; reflexivity.
Qed.

(** *** The waiting loop *)

Lemma poll_left_polling fuel tid run w run' w' :
  poll fuel tid run w = Done run' w' -> in_polling (status run') = false.
Proof.
  revert run w. induction fuel as [|fuel IH]; intros run w; simpl;
    destruct (in_polling (status run)) eqn:E.
  - discriminate.
  - intros H. injection H as <- _. exact E.
  - intros H. apply bind_done_inv in H as (_ & w1 & _ & H).
    apply bind_done_inv in H as (r & w2 & _ & H). exact (IH _ _ H).
  - intros H. injection H as <- _. exact E.
Qed.

(** A run outside the polling set is returned at once, with no query. *)
Lemma poll_exit fuel tid run w :
  in_polling (status run) = false -> poll fuel tid run w = Done run w.
Proof. intros E. destruct fuel; simpl; rewrite E; reflexivity. Qed.

Lemma post_poll (Q : World R -> World R -> Prop) :
  (forall w, Q w w) ->
  (forall w w1 w2, Q w w1 -> Q w1 w2 -> Q w w2) ->
  post Q (emit (Sleep 1)) ->
  (forall tid rid,
      post Q (api (RunsRetrieve tid rid) (runs_retrieve tid rid))) ->
  forall fuel tid run, post Q (poll fuel tid run).
Proof.
  intros Hrefl Htrans Hsleep Hget fuel tid.
  induction fuel as [|fuel IH]; intros run; simpl;
    destruct (in_polling (status run)).
  - intros w w' H. discriminate.
  - apply post_ret, Hrefl.
  - apply post_seq; [exact Htrans | exact Hsleep | intros _].
    apply post_seq; [exact Htrans | apply Hget | intros r; apply IH].
  - apply post_ret, Hrefl.
Qed.

Lemma session_poll fuel tid run : post (R := R) same_session (poll fuel tid run).
Proof.
  apply post_poll.
  - reflexivity.
  - exact same_session_trans.
  - apply session_emit.
  - intros. apply session_api.
Qed.

Lemma no_submit_poll fuel tid run :
  post (R := R) (quiet is_submit) (poll fuel tid run).
Proof.
  apply post_poll.
  - apply quiet_refl.
  - apply quiet_trans.
  - apply quiet_emit. reflexivity.
  - intros. apply quiet_api. reflexivity.
Qed.

(** *** The tool executor and the dispatch *)

Lemma send_email_run to subject body (w : World R) :
  send_email to subject body w =
  Done success_text
       (mkWorld (session w) (remote w)
                (trace w ++ email_events to subject body)).
Proof.
  unfold send_email, bind, emit, ret, email_events. simpl.
  repeat rewrite <- app_assoc. reflexivity.
Qed.

Lemma dispatch_one_skip tc outs (w : World R) :
  is_send_email tc = false -> dispatch_one json_loads tc outs w = Done outs w.
Proof. unfold dispatch_one, is_send_email. intros ->. reflexivity. Qed.

Lemma dispatch_one_ok tc outs (w : World R) to subject body :
  is_send_email tc = true -> decode json_loads tc = inr (to, subject, body) ->
  dispatch_one json_loads tc outs w =
  Done (outs ++ [output_of tc])
       (mkWorld (session w) (remote w)
                (trace w ++ info_event :: email_events to subject body)).
Proof.
  unfold dispatch_one, is_send_email, decode. intros -> D.
  cbv [bind emit lift ret raise].
  destruct (loads json_loads (fn_arguments tc)) as [e|args];
    [discriminate|].
  destruct (subscript args "to") as [e|x1]; [discriminate|].
  destruct (subscript args "subject") as [e|x2]; [discriminate|].
  destruct (subscript args "body") as [e|x3]; [discriminate|].
  injection D as -> -> ->.
  rewrite send_email_run. simpl. rewrite <- app_assoc. reflexivity.
Qed.

Lemma dispatch_one_bad tc outs (w : World R) e :
  is_send_email tc = true -> decode json_loads tc = inl e ->
  dispatch_one json_loads tc outs w =
  Raised e (mkWorld (session w) (remote w) (trace w ++ [info_event])).
Proof.
  unfold dispatch_one, is_send_email, decode. intros -> D.
  cbv [bind emit lift ret raise].
  destruct (loads json_loads (fn_arguments tc)) as [e0|args].
  { injection D as ->. reflexivity. }
  destruct (subscript args "to") as [e1|x1].
  { injection D as ->. reflexivity. }
  destruct (subscript args "subject") as [e2|x2].
  { injection D as ->. reflexivity. }
  destruct (subscript args "body") as [e3|x3].
  { injection D as ->. reflexivity. }
  discriminate.
Qed.

Lemma local_only_ext (w : World R) evs :
  count_events is_api evs = 0 ->
  local_only w (mkWorld (session w) (remote w) (trace w ++ evs)).
Proof. intros C. repeat split. exists evs. split; [reflexivity | exact C]. Qed.

Lemma local_dispatch_one tc outs :
  post (R := R) local_only (dispatch_one json_loads tc outs).
Proof.
  intros w w'. destruct (is_send_email tc) eqn:N.
  - destruct (decode json_loads tc) as [e|[[to subject] body]] eqn:D.
    + rewrite (dispatch_one_bad _ _ _ _ N D). intros H. injection H as <-.
      apply local_only_ext. reflexivity.
    + rewrite (dispatch_one_ok _ _ _ _ _ _ N D). intros H. injection H as <-.
      apply local_only_ext. reflexivity.
  - rewrite (dispatch_one_skip _ _ _ N). intros H. injection H as <-.
    apply local_only_refl.
Qed.

Lemma local_dispatch calls : forall outs,
  post (R := R) local_only (dispatch json_loads calls outs).
Proof.
  induction calls as [|tc calls IH]; intros outs; simpl.
  - apply post_ret, local_only_refl.
  - apply post_seq.
    + exact local_only_trans.
    + apply local_dispatch_one.
    + intros a. apply IH.
Qed.

(** A call under another name leaves no mark on the loop. *)
Lemma dispatch_skip before tc after : forall outs (w : World R),
  is_send_email tc = false ->
  dispatch json_loads (before ++ tc :: after) outs w =
  dispatch json_loads (before ++ after) outs w.
Proof.
  induction before as [|c before IH]; intros outs w N; simpl.
  - unfold bind. rewrite (dispatch_one_skip _ _ _ N). reflexivity.
  - unfold bind.
    destruct (dispatch_one json_loads c outs w); try reflexivity.
    apply IH, N.
Qed.

Lemma dispatch_ok calls : forall outs (w : World R),
  Forall (readable json_loads) calls ->
  dispatch json_loads calls outs w =
  Done (outs ++ map output_of (filter is_send_email calls))
       (mkWorld (session w) (remote w)
                (trace w ++ flat_map (call_events json_loads) calls)).
Proof.
  induction calls as [|tc calls IH]; intros outs w F; simpl.
  - unfold ret. rewrite !app_nil_r. destruct w; reflexivity.
  - inversion F as [|? ? Htc F']; subst.
    unfold call_events at 1. destruct (is_send_email tc) eqn:N.
    + destruct (Htc N) as ([[to subject] body] & D). rewrite D.
      rewrite (bind_done _ _ _ _ _ (dispatch_one_ok _ _ _ _ _ _ N D)).
      rewrite (IH _ _ F'). simpl. rewrite <- !app_assoc. reflexivity.
    + rewrite (bind_done _ _ _ _ _ (dispatch_one_skip _ _ _ N)).
      apply IH, F'.
Qed.

(** A request named [send_email] with an unreadable payload stops the
    loop by an exception, whatever stands around it. *)
Lemma dispatch_bad calls tc : forall outs (w : World R),
  In tc calls -> is_send_email tc = true ->
  (exists e, decode json_loads tc = inl e) ->
  exists e w', dispatch json_loads calls outs w = Raised e w'
               /\ local_only w w'.
Proof.
  induction calls as [|c calls IH]; intros outs w I N (e & D).
  - destruct I.
  - simpl. pose proof (local_dispatch_one c outs w) as L.
    unfold bind. destruct (dispatch_one json_loads c outs w)
      as [outs1 w1|e1 w1|w1|] eqn:E.
    + assert (L1 : local_only w w1) by (apply L; reflexivity).
      assert (I' : In tc calls).
      { destruct I as [->|I]; [|exact I].
        rewrite (dispatch_one_bad _ _ _ _ N D) in E. discriminate. }
      destruct (IH outs1 w1 I' N (ex_intro _ e D)) as (e2 & w2 & H2 & L2).
      exists e2, w2. split; [exact H2|].
      eapply local_only_trans; eassumption.
    + exists e1, w1. split; [reflexivity | apply L; reflexivity].
    + exfalso. destruct (is_send_email c) eqn:Nc.
      * destruct (decode json_loads c) as [e0|[[to subject] body]] eqn:Dc.
        -- rewrite (dispatch_one_bad _ _ _ _ Nc Dc) in E. discriminate.
        -- rewrite (dispatch_one_ok _ _ _ _ _ _ Nc Dc) in E. discriminate.
      * rewrite (dispatch_one_skip _ _ _ Nc) in E. discriminate.
    + exfalso. destruct (is_send_email c) eqn:Nc.
      * destruct (decode json_loads c) as [e0|[[to subject] body]] eqn:Dc.
        -- rewrite (dispatch_one_bad _ _ _ _ Nc Dc) in E. discriminate.
        -- rewrite (dispatch_one_ok _ _ _ _ _ _ Nc Dc) in E. discriminate.
      * rewrite (dispatch_one_skip _ _ _ Nc) in E. discriminate.
Qed.

(** *** The phases of a prompt cycle *)

(** [start_cycle], call by call. *)
Lemma start_cycle_run fuel aid tid prompt (w : World R) :
  start_cycle fuel aid tid prompt w =
  let s := with_message (user_message prompt) (session w) in
  let t1 := trace w ++ [St_chat "user" prompt;
                        Api (MessagesCreate tid "user" prompt)] in
  match messages_create tid "user" prompt (remote w) with
  | (inl e, r1) => Raised e (mkWorld s r1 t1)
  | (inr _, r1) =>
      match runs_create tid aid r1 with
      | (inl e, r2) => Raised e (mkWorld s r2 (t1 ++ [Api (RunsCreate tid aid)]))
      | (inr run, r2) =>
          poll fuel tid run
               (mkWorld s r2
                        (t1 ++ [Api (RunsCreate tid aid);
                                St_spinner "Assistant is thinking..."]))
      end
  end.
Proof.
  cbv [start_cycle bind api emit append_message get_session put_session].
  simpl.
  destruct (messages_create tid "user" prompt (remote w)) as [[e|u] r1];
    simpl; rewrite <- app_assoc; simpl; [reflexivity|].
  destruct (runs_create tid aid r1) as [[e|run] r2]; simpl;
    rewrite <- !app_assoc; reflexivity.
Qed.

Lemma start_cycle_session fuel aid tid prompt (w : World R) o w1 :
  start_cycle fuel aid tid prompt w = o -> world_of o = Some w1 ->
  session w1 = with_message (user_message prompt) (session w).
Proof.
  intros <-. rewrite start_cycle_run. cbv zeta.
  destruct (messages_create tid "user" prompt (remote w)) as [[e|u] r1].
  - intros H. injection H as <-. reflexivity.
  - destruct (runs_create tid aid r1) as [[e|run] r2].
    + intros H. injection H as <-. reflexivity.
    + intros H. apply session_poll in H. exact H.
Qed.

(** The tool round of a run in [requires_action]: the dispatch, then the
    submission.  The second loop neither queries nor waits. *)
Lemma tool_round_run fuel tid run calls (w : World R) :
  status run = "requires_action" ->
  required_action run = Some calls ->
  tool_round json_loads fuel tid run w =
  (outs <- dispatch json_loads calls [] ;;
   api (RunsSubmit tid (run_id run) outs)
       (runs_submit_tool_outputs tid (run_id run) outs) ;;
   ret tt) w.
Proof.
  intros St Rq. unfold tool_round, tool_calls_of. rewrite St, Rq. simpl.
  cbv [bind lift ret].
  destruct (dispatch json_loads calls [] w) as [outs w1|e w1|w1|];
    try reflexivity.
  destruct (api (RunsSubmit tid (run_id run) outs)
                (runs_submit_tool_outputs tid (run_id run) outs) w1)
    as [x w2|e w2|w2|]; try reflexivity.
  unfold poll_again. rewrite poll_exit by (rewrite St; reflexivity).
  reflexivity.
Qed.

(** The tool round when every payload is readable and the submission is
    accepted. *)
Lemma tool_round_ok fuel tid run calls (w : World R) run' r2 :
  status run = "requires_action" ->
  required_action run = Some calls ->
  Forall (readable json_loads) calls ->
  runs_submit_tool_outputs tid (run_id run)
    (map output_of (filter is_send_email calls)) (remote w) = (inr run', r2) ->
  tool_round json_loads fuel tid run w =
  Done tt
       (mkWorld (session w) r2
          (trace w ++ flat_map (call_events json_loads) calls ++
             [Api (RunsSubmit tid (run_id run)
                     (map output_of (filter is_send_email calls)))])).
Proof.
  intros St Rq F Sub. rewrite (tool_round_run _ _ _ _ _ St Rq).
  rewrite (bind_done _ _ _ _ _ (dispatch_ok calls [] w F)). simpl.
  unfold bind, api, ret. simpl. rewrite Sub.
  rewrite <- app_assoc. reflexivity.
Qed.

(** Outside [requires_action] the block is skipped. *)
Lemma tool_round_skip fuel tid run (w : World R) :
  status run <> "requires_action" ->
  tool_round json_loads fuel tid run w = Done tt w.
Proof.
  intros N. unfold tool_round. apply String.eqb_neq in N. rewrite N.
  reflexivity.
Qed.

Lemma final_fetch_ok tid (w : World R) data r' v :
  messages_list tid (remote w) = (inr data, r') ->
  first_text data = inr v ->
  final_fetch tid w =
  Done tt (mkWorld (with_message (assistant_message v) (session w)) r'
                   (trace w ++ [Api (MessagesList tid);
                                St_chat "assistant" v])).
Proof.
  intros L F.
  cbv [final_fetch bind api emit append_message get_session put_session lift
       ret raise].
  rewrite L, F. simpl. rewrite <- app_assoc. reflexivity.
Qed.

Lemma final_fetch_done tid (w w' : World R) :
  final_fetch tid w = Done tt w' ->
  exists data v,
    messages_list tid (remote w) = (inr data, remote w')
    /\ first_text data = inr v
    /\ session w' = with_message (assistant_message v) (session w)
    /\ trace w' = trace w ++ [Api (MessagesList tid); St_chat "assistant" v].
Proof.
  destruct (messages_list tid (remote w)) as [[e|data] r'] eqn:L.
  - cbv [final_fetch bind api]. rewrite L. discriminate.
  - destruct (first_text data) as [e|v] eqn:F.
    + cbv [final_fetch bind api lift raise]. rewrite L, F. discriminate.
    + rewrite (final_fetch_ok _ _ _ _ _ L F). intros H. injection H as <-.
      exists data, v. repeat split; assumption.
Qed.

Lemma handler_run fuel prompt (w : World R) aid tid :
  handles (session w) = Some (aid, tid) ->
  chat_input_handler json_loads fuel prompt w =
  (run <- start_cycle fuel aid tid prompt ;;
   tool_round json_loads fuel tid run ;;
   final_fetch tid) w.
Proof.
  intros H. unfold chat_input_handler. unfold bind at 1, get_session.
  rewrite H. reflexivity.
Qed.

Lemma handler_guard fuel prompt (w : World R) :
  handles (session w) = None ->
  chat_input_handler json_loads fuel prompt w =
  Stopped (mkWorld (session w) (remote w)
                   (trace w ++ [St_error no_assistant_error])).
Proof.
  intros H. unfold chat_input_handler. unfold bind at 1, get_session.
  rewrite H. reflexivity.
Qed.

(** *** Remote submissions in one cycle *)

Lemma quiet_submits_le p n (w w' : World R) :
  (forall e, is_submit e = true -> p e = true) ->
  quiet p w w' -> submits_le n w w'.
Proof.
  intros Hp (evs & A & C). exists evs. split; [exact A|].
  enough (count_events is_submit evs = 0) by lia.
  clear A. unfold count_events in *.
  induction evs as [|e evs IH]; simpl in *; [reflexivity|].
  destruct (is_submit e) eqn:E.
  - rewrite (Hp e E) in C. discriminate.
  - apply IH. destruct (p e); [discriminate | exact C].
Qed.

Lemma post_weaken {A} (Q Q' : World R -> World R -> Prop) (m : M R A) :
  (forall w w', Q w w' -> Q' w w') -> post Q m -> post Q' m.
Proof. intros Hq Hm w w' H. apply Hq, Hm, H. Qed.

Lemma quiet_append_message p (m : Message) :
  post (R := R) (quiet p) (append_message m).
Proof.
  intros w w' H. injection H as <-. exists []. split.
  - unfold added. simpl. now rewrite app_nil_r.
  - reflexivity.
Qed.

Ltac no_submit_step :=
  first [ apply quiet_append_message
        | apply quiet_emit; reflexivity
        | apply quiet_api; reflexivity
        | apply post_lift, quiet_refl
        | apply no_submit_poll
        | apply post_seq; [apply quiet_trans | | intro] ].

Lemma no_submit_start_cycle fuel aid tid prompt :
  post (R := R) (quiet is_submit) (start_cycle fuel aid tid prompt).
Proof. unfold start_cycle. repeat no_submit_step. Qed.

Lemma no_submit_final_fetch tid :
  post (R := R) (quiet is_submit) (final_fetch tid).
Proof. unfold final_fetch. repeat no_submit_step. Qed.

Lemma submits_le_add a b n (w w1 w2 : World R) :
  a + b <= n -> submits_le a w w1 -> submits_le b w1 w2 -> submits_le n w w2.
Proof.
  intros Hn (e1 & A1 & C1) (e2 & A2 & C2). exists (e1 ++ e2). split.
  - unfold added in *. rewrite A2, A1, app_assoc. reflexivity.
  - rewrite count_events_app. lia.
Qed.

Lemma submits_le_mono a n (w w1 : World R) :
  a <= n -> submits_le a w w1 -> submits_le n w w1.
Proof. intros Hn (e1 & A1 & C1). exists e1. split; [exact A1 | lia]. Qed.

Lemma post_submits_mono {A} a n (m : M R A) :
  a <= n -> post (R := R) (submits_le a) m -> post (R := R) (submits_le n) m.
Proof. intros Hn. apply post_weaken. intros w w'. now apply submits_le_mono. Qed.

Lemma no_submit_is_le_0 {A} (m : M R A) :
  post (R := R) (quiet is_submit) m -> post (R := R) (submits_le 0) m.
Proof. apply post_weaken. intros w w'. apply quiet_submits_le. auto. Qed.

Lemma no_api_no_submit {A} (m : M R A) :
  post (R := R) local_only m -> post (R := R) (submits_le 0) m.
Proof.
  apply post_weaken. intros w w' (_ & _ & Q). revert Q.
  apply quiet_submits_le. intros [] E; try discriminate. reflexivity.
Qed.

(** Sequencing a handler that submits at most [a] times with one that
    submits at most [b] times. *)
Lemma submits_le_bind {A B} a b (m : M R A) (k : A -> M R B) :
  post (R := R) (submits_le a) m -> (forall x, post (R := R) (submits_le b) (k x)) ->
  post (R := R) (submits_le (a + b)) (bind m k).
Proof.
  intros Hm Hk. apply (post_bind (submits_le a) (submits_le b)); auto.
  - intros w w1. apply submits_le_mono. lia.
  - intros w w1 w2. apply submits_le_add. lia.
Qed.

Lemma submits_le_tool_round fuel tid run :
  post (R := R) (submits_le 1) (tool_round json_loads fuel tid run).
Proof.
  unfold tool_round. destruct (status run =? "requires_action").
  2:{ apply (post_submits_mono 0); [lia|].
      apply no_submit_is_le_0, post_ret, quiet_refl. }
  apply (submits_le_bind 0 1).
  { apply no_submit_is_le_0, post_lift, quiet_refl. }
  intros calls. apply (submits_le_bind 0 1).
  { apply no_api_no_submit, local_dispatch. }
  intros outs. apply (submits_le_bind 1 0).
  - intros w w'. unfold api.
    destruct (runs_submit_tool_outputs tid (run_id run) outs (remote w))
      as [[e|a] r]; simpl; intros H; injection H as <-;
      eexists; (split; [reflexivity | unfold count_events; simpl; lia]).
  - intros _. apply no_submit_is_le_0. apply post_seq.
    + apply quiet_trans.
    + unfold poll_again. apply no_submit_poll.
    + intros _. apply post_ret, quiet_refl.
Qed.

(** However a prompt cycle ends, it has submitted tool outputs at most
    once. *)
Lemma one_round_at_most fuel prompt :
  post (R := R) (submits_le 1) (chat_input_handler json_loads fuel prompt).
Proof.
  intros w w'. destruct (handles (session w)) as [[aid tid]|] eqn:H.
  - rewrite (handler_run _ _ _ _ _ H). clear H. revert w w'.
    apply (submits_le_bind 0 1).
    { apply no_submit_is_le_0, no_submit_start_cycle. }
    intros run. apply (submits_le_bind 1 0).
    + apply submits_le_tool_round.
    + intros _. apply no_submit_is_le_0, no_submit_final_fetch.
  - rewrite (handler_guard _ _ _ H). intros E. injection E as <-.
    exists [St_error no_assistant_error].
    split; [reflexivity | unfold count_events; simpl; lia].
Qed.

(** ** The assistant provisioner *)

(** C4.  For every context that is empty or consists of white space only,
    the provisioner makes no remote call, shows one warning and nothing
    else, and leaves the session state (both handles and the transcript)
    and the remote service as they were. *)
Theorem blank_context_rejected (context : string) (w : World R) :
  blank context = true ->
  provision context w =
  Done tt (mkWorld (session w) (remote w)
                   (trace w ++ [St_warning empty_context_warning])).
Proof.
  intros B. unfold provision. rewrite truthy_strip, B. reflexivity.
Qed.

(** C9, as amended.  When the provisioner runs successfully (the context is
    not blank and the service answers the three creations), the two handles
    are replaced by the identifiers just created and the transcript is
    emptied; the list of recipient addresses is kept as it was. *)
Theorem provision_replaces_handles
        (context : string) (w : World R) file r1 assistant r2 thread r3 :
  blank context = false ->
  files_create "context.txt" (encode_utf8 context) "assistants" (remote w)
  = (inr file, r1) ->
  assistants_create (assistant_spec file) r1 = (inr assistant, r2) ->
  threads_create r2 = (inr thread, r3) ->
  provision context w =
  Done tt
       (mkWorld
          (mkSession (Some assistant) (Some thread) []
                     (email_list (session w)))
          r3
          (trace w ++ provision_events context file assistant thread)).
Proof.
  intros B F A T. unfold provision. rewrite truthy_strip, B. simpl.
  cbv [bind emit api set_assistant_id set_thread_id set_messages
       get_session put_session].
  simpl. rewrite F. simpl. rewrite A. simpl. rewrite T. simpl.
  rewrite <- !app_assoc. reflexivity.
Qed.

(** ** The guard of the prompt cycle *)

Lemma handles_none (s : Session) :
  truthy_opt (assistant_id s) = false \/ truthy_opt (thread_id s) = false ->
  handles s = None.
Proof.
  unfold handles, truthy_opt.
  destruct (assistant_id s) as [a|], (thread_id s) as [t|]; try reflexivity.
  intros [H|H]; rewrite H; simpl; try reflexivity.
  rewrite orb_true_r. reflexivity.
Qed.

(** C5.  A prompt cycle entered while the assistant handle or the
    conversation handle is absent shows an error and stops the script: the
    transcript is unchanged, so is the remote service (no message appended,
    no run started), and the error is the only event. *)
Theorem missing_handle_guard (fuel : nat) (prompt : string) (w : World R) :
  truthy_opt (assistant_id (session w)) = false
  \/ truthy_opt (thread_id (session w)) = false ->
  chat_input_handler json_loads fuel prompt w =
  Stopped (mkWorld (session w) (remote w)
                   (trace w ++ [St_error no_assistant_error])).
Proof. intros H. apply handler_guard, handles_none, H. Qed.

(** ** Tool calls *)

Lemma dispatch_outputs calls : forall acc (w : World R) outs w',
  dispatch json_loads calls acc w = Done outs w' ->
  outs = acc ++ map output_of (filter is_send_email calls).
Proof.
  induction calls as [|tc calls IH]; intros acc w outs w'; simpl.
  - intros H. injection H as <- _. now rewrite app_nil_r.
  - intros H. apply bind_done_inv in H as (acc1 & w1 & H1 & H2).
    apply IH in H2. subst outs. destruct (is_send_email tc) eqn:N.
    + destruct (decode json_loads tc) as [e|[[to subject] body]] eqn:D.
      * rewrite (dispatch_one_bad _ _ _ _ N D) in H1. discriminate.
      * rewrite (dispatch_one_ok _ _ _ _ _ _ N D) in H1.
        injection H1 as <- _. simpl. now rewrite <- app_assoc.
    + rewrite (dispatch_one_skip _ _ _ N) in H1. injection H1 as <- _.
      reflexivity.
Qed.

(** C7.  A tool call whose function name is not [send_email] is passed
    over in silence: the whole tool round, the submitted batch included,
    is the one of the same run without that call, and the outputs the loop
    builds are those of the calls named [send_email] only. *)
Theorem unknown_tool_call_omitted
        (fuel : nat) (tid rid : string) (before after : list ToolCall)
        (tc : ToolCall) (w : World R) :
  fn_name tc <> "send_email" ->
  tool_round json_loads fuel tid
    (mkRun rid "requires_action" (Some (before ++ tc :: after))) w
  = tool_round json_loads fuel tid
      (mkRun rid "requires_action" (Some (before ++ after))) w
  /\ forall outs w',
      dispatch json_loads (before ++ tc :: after) [] w = Done outs w' ->
      outs = map output_of (filter is_send_email (before ++ after))
      /\ List.length outs
         = List.length (filter is_send_email (before ++ tc :: after)).
Proof.
  intros N. apply String.eqb_neq in N.
  assert (S : forall acc (w0 : World R),
             dispatch json_loads (before ++ tc :: after) acc w0
             = dispatch json_loads (before ++ after) acc w0).
  { intros. apply dispatch_skip. exact N. }
  split.
  - rewrite (tool_round_run fuel tid (mkRun rid "requires_action" _)
                            (before ++ tc :: after) w eq_refl eq_refl).
    rewrite (tool_round_run fuel tid (mkRun rid "requires_action" _)
                            (before ++ after) w eq_refl eq_refl).
    simpl. unfold bind at 1 3. rewrite S. reflexivity.
  - intros outs w' H. pose proof (dispatch_outputs _ _ _ _ _ H) as E.
    rewrite S in H. apply dispatch_outputs in H. simpl in *.
    split; [exact H|]. rewrite E, length_map. reflexivity.
Qed.

(** *** Unreadable payloads *)

Lemma lacks_key_subscript v k :
  lacks_key v k -> exists e, subscript v k = inl e.
Proof.
  destruct v; simpl; eauto. intros ->. eauto.
Qed.

Lemma unreadable_decode tc :
  unreadable json_loads (fn_arguments tc) ->
  exists e, decode json_loads tc = inl e.
Proof.
  unfold unreadable, decode, loads. intros [->|(v & -> & K)]; eauto.
  destruct (subscript v "to") as [e|x1] eqn:S1; eauto.
  destruct (subscript v "subject") as [e|x2] eqn:S2; eauto.
  destruct (subscript v "body") as [e|x3] eqn:S3; eauto.
  exfalso.
  destruct K as [K|[K|K]]; apply lacks_key_subscript in K as (e & K);
    congruence.
Qed.

(** C10.  The dispatch of a call named [send_email] decodes the payload
    with [json.loads] and reads the members [to], [subject] and [body]: with
    the three present, these are the values handed to the executor.  When
    the payload of some such call of the batch is not valid JSON or lacks one
    of the three keys, the cycle ends by an uncaught exception: after the
    first loop no remote call is made, so no tool outputs are submitted, and
    the transcript has gained the user message only. *)
Theorem unreadable_arguments_abort_cycle (fuel : nat) (prompt : string) :
  (forall (tc : ToolCall) (outs : list ToolOutput) (w : World R)
          (v to subject body : json),
      fn_name tc = "send_email" ->
      json_loads (fn_arguments tc) = Some v ->
      subscript v "to" = inr to ->
      subscript v "subject" = inr subject ->
      subscript v "body" = inr body ->
      dispatch_one json_loads tc outs w =
      Done (outs ++ [mkToolOutput (tc_id tc) success_text])
           (mkWorld (session w) (remote w)
                    (trace w ++ info_event :: email_events to subject body)))
  /\
  (forall (w : World R) aid tid run w1 calls tc,
      handles (session w) = Some (aid, tid) ->
      start_cycle fuel aid tid prompt w = Done run w1 ->
      status run = "requires_action" ->
      required_action run = Some calls ->
      In tc calls ->
      fn_name tc = "send_email" ->
      unreadable json_loads (fn_arguments tc) ->
      exists e w',
        chat_input_handler json_loads fuel prompt w = Raised e w'
        /\ remote w' = remote w1
        /\ (exists evs, trace w' = trace w1 ++ evs
                        /\ count_events is_api evs = 0)
        /\ messages (session w')
           = messages (session w) ++ [user_message prompt]).
Proof.
  split.
  - intros tc outs w v to subject body N L S1 S2 S3.
    apply dispatch_one_ok.
    + unfold is_send_email. rewrite N. reflexivity.
    + unfold decode, loads. rewrite L, S1, S2, S3. reflexivity.
  - intros w aid tid run w1 calls tc H C St Rq I N U.
    assert (N' : is_send_email tc = true).
    { unfold is_send_email. rewrite N. reflexivity. }
    destruct (dispatch_bad calls tc [] w1 I N' (unreadable_decode _ U))
      as (e & w' & D & (Ls & Lr & Lq)).
    exists e, w'. repeat split.
    + rewrite (handler_run _ _ _ _ _ H).
      rewrite (bind_done _ _ _ _ _ C).
      apply bind_raised. rewrite (tool_round_run _ _ _ _ _ St Rq).
      apply bind_raised. exact D.
    + exact Lr.
    + exact Lq.
    + rewrite Ls.
      rewrite (start_cycle_session _ _ _ _ _ _ _ C eq_refl). reflexivity.
Qed.

(** ** The final response *)

Lemma start_cycle_left_polling fuel aid tid prompt (w : World R) run w1 :
  start_cycle fuel aid tid prompt w = Done run w1 ->
  in_polling (status run) = false.
Proof.
  rewrite start_cycle_run. cbv zeta.
  destruct (messages_create tid "user" prompt (remote w)) as [[e|u] r1];
    [discriminate|].
  destruct (runs_create tid aid r1) as [[e|run0] r2]; [discriminate|].
  apply poll_left_polling.
Qed.

(** C8.  Once the first loop has left the polling set, with whatever
    status, and the tool round (skipped unless the status is
    [requires_action]) is over, the handler lists the messages of the
    thread, takes the text of the entry at index 0 whatever its role, and
    appends it to the transcript as an assistant message. *)
Theorem newest_message_appended
        (fuel : nat) (prompt : string) (w : World R)
        aid tid run w1 w2 m rest v blocks r' :
  handles (session w) = Some (aid, tid) ->
  start_cycle fuel aid tid prompt w = Done run w1 ->
  tool_round json_loads fuel tid run w1 = Done tt w2 ->
  messages_list tid (remote w2) = (inr (m :: rest), r') ->
  tm_content m = TextBlock v :: blocks ->
  in_polling (status run) = false
  /\ (status run <> "requires_action" -> w2 = w1)
  /\ chat_input_handler json_loads fuel prompt w =
     Done tt (mkWorld (with_message (assistant_message v) (session w2)) r'
                      (trace w2 ++ [Api (MessagesList tid);
                                    St_chat "assistant" v])).
Proof.
  intros H C T L B. split; [|split].
  - exact (start_cycle_left_polling _ _ _ _ _ _ _ C).
  - intros N. rewrite (tool_round_skip _ _ _ _ N) in T. now injection T.
  - rewrite (handler_run _ _ _ _ _ H).
    rewrite (bind_done _ _ _ _ _ C), (bind_done _ _ _ _ _ T).
    apply (final_fetch_ok _ _ _ _ _ L). simpl. rewrite B. reflexivity.
Qed.

Lemma tool_round_session fuel tid run :
  post (R := R) same_session (tool_round json_loads fuel tid run).
Proof.
  unfold tool_round. destruct (status run =? "requires_action").
  2:{ now apply post_ret. }
  apply post_seq; [exact same_session_trans | now apply post_lift | intros].
  apply post_seq; [exact same_session_trans | | intros].
  { apply (post_weaken local_only); [|apply local_dispatch].
    intros w w' (S & _). exact S. }
  apply post_seq; [exact same_session_trans | apply session_api | intros].
  apply post_seq; [exact same_session_trans | | intros].
  { unfold poll_again. apply session_poll. }
  now apply post_ret.
Qed.

(** A text read by [first_text] is that of the first block of the first
    message. *)
Lemma first_text_head (data : list ThreadMessage) (v : string) :
  first_text data = inr v ->
  exists m rest blocks, data = m :: rest /\ tm_content m = TextBlock v :: blocks.
Proof.
  destruct data as [|m rest]; simpl; [discriminate|].
  destruct (tm_content m) as [|[t|f] blocks] eqn:C; try discriminate.
  intros E. injection E as <-. exists m, rest, blocks.
  split; [reflexivity | exact C].
Qed.

(** C6.  After a successful cycle the transcript is the former one followed
    by the user message with the prompt and the assistant message with the
    reply: the text of the first block of the newest entry that
    [messages.list] gives for the thread of the session, asked of the
    service as the tool round has left it; nothing else of the session has
    changed.  The user message is appended locally before the remote
    append: when that call fails, the transcript already holds it. *)
Theorem transcript_ordering (fuel : nat) (prompt : string) :
  (forall (w w' : World R),
      chat_input_handler json_loads fuel prompt w = Done tt w' ->
      exists aid tid run w1 w2 m rest reply blocks,
        assistant_id (session w) = Some aid
        /\ thread_id (session w) = Some tid
        /\ start_cycle fuel aid tid prompt w = Done run w1
        /\ tool_round json_loads fuel tid run w1 = Done tt w2
        /\ messages_list tid (remote w2) = (inr (m :: rest), remote w')
        /\ tm_content m = TextBlock reply :: blocks
        /\ session w'
           = with_message (assistant_message reply)
               (with_message (user_message prompt) (session w))
        /\ messages (session w')
           = messages (session w)
               ++ [user_message prompt; assistant_message reply])
  /\
  (forall (w : World R) aid tid e r1,
      handles (session w) = Some (aid, tid) ->
      messages_create tid "user" prompt (remote w) = (inl e, r1) ->
      exists w',
        chat_input_handler json_loads fuel prompt w = Raised e w'
        /\ messages (session w')
           = messages (session w) ++ [user_message prompt]).
Proof.
  split.
  - intros w w' D.
    destruct (handles (session w)) as [[aid tid]|] eqn:H.
    2:{ rewrite (handler_guard _ _ _ H) in D. discriminate. }
    rewrite (handler_run _ _ _ _ _ H) in D.
    apply bind_done_inv in D as (run & w1 & C & D).
    apply bind_done_inv in D as ([] & w2 & T & D).
    apply final_fetch_done in D as (data & reply & L & F & S & _).
    apply first_text_head in F as (m & rest & blocks & -> & Hm).
    assert (S2 : session w2 = session w1).
    { apply (tool_round_session fuel tid run w1 w2). rewrite T.
      reflexivity. }
    assert (S' : session w'
                 = with_message (assistant_message reply)
                     (with_message (user_message prompt) (session w))).
    { rewrite S, S2, (start_cycle_session _ _ _ _ _ _ _ C eq_refl).
      reflexivity. }
    assert (Ha : assistant_id (session w) = Some aid
                 /\ thread_id (session w) = Some tid).
    { unfold handles in H.
      destruct (assistant_id (session w)) as [a|]; [|discriminate].
      destruct (thread_id (session w)) as [t|]; [|discriminate].
      destruct (negb (truthy a) || negb (truthy t)); [discriminate|].
      injection H as -> ->. split; reflexivity. }
    destruct Ha as [Ha Ht].
    exists aid, tid, run, w1, w2, m, rest, reply, blocks.
    repeat split; try assumption.
    rewrite S'. simpl. rewrite <- app_assoc. reflexivity.
  - intros w aid tid e r1 H F. eexists. split.
    + rewrite (handler_run _ _ _ _ _ H). apply bind_raised.
      rewrite start_cycle_run. cbv zeta. rewrite F. reflexivity.
    + reflexivity.
Qed.

(** ** One round of tool calls *)

(** The executor prints its heading once in each invocation. *)
Lemma one_header_per_email to subject body :
  count_events is_mock_header (email_events to subject body) = 1.
Proof. reflexivity. Qed.

Lemma headers_of_calls calls :
  Forall (readable json_loads) calls ->
  count_events is_mock_header (flat_map (call_events json_loads) calls)
  = List.length (filter is_send_email calls).
Proof.
  induction 1 as [|tc calls Htc F IH]; simpl.
  - reflexivity.
  - rewrite count_events_app, IH. unfold call_events.
    destruct (is_send_email tc) eqn:N; simpl; [|reflexivity].
    destruct (Htc N) as ([[to subject] body] & ->). reflexivity.
Qed.

Lemma outputs_match (calls : list ToolCall) :
  Forall2 (fun tc o => tool_call_id o = tc_id tc /\ output o = success_text)
          calls (map output_of calls).
Proof. induction calls; simpl; constructor; auto. Qed.

(** C2.  In a cycle whose run asks for action once, with readable
    payloads, an accepted submission and a final message to read: the
    executor runs exactly once for each request named [send_email]; the
    outputs submitted are, in order, one per such request, with that
    request's call identifier and the fixed success text, which is what the
    executor returns; exactly one assistant message is appended.  No cycle,
    however it ends, submits tool outputs more than once. *)
Theorem single_tool_round
        (fuel : nat) (prompt : string) (w : World R)
        aid tid run w1 calls run' r2 data r3 reply :
  handles (session w) = Some (aid, tid) ->
  start_cycle fuel aid tid prompt w = Done run w1 ->
  status run = "requires_action" ->
  required_action run = Some calls ->
  Forall (readable json_loads) calls ->
  runs_submit_tool_outputs tid (run_id run)
    (map output_of (filter is_send_email calls)) (remote w1) = (inr run', r2) ->
  messages_list tid r2 = (inr data, r3) ->
  first_text data = inr reply ->
  exists w' outs,
    chat_input_handler json_loads fuel prompt w = Done tt w'
    /\ trace w'
       = trace w1 ++ flat_map (call_events json_loads) calls
           ++ [Api (RunsSubmit tid (run_id run) outs);
               Api (MessagesList tid); St_chat "assistant" reply]
    /\ count_events is_mock_header (flat_map (call_events json_loads) calls)
       = List.length (filter is_send_email calls)
    /\ Forall2 (fun tc o => tool_call_id o = tc_id tc
                            /\ output o = success_text)
               (filter is_send_email calls) outs
    /\ (forall to subject body (w0 : World R),
          exists w0', send_email to subject body w0 = Done success_text w0')
    /\ messages (session w')
       = messages (session w)
           ++ [user_message prompt; assistant_message reply]
    /\ (forall fuel0 prompt0 (v v' : World R),
          world_of (chat_input_handler json_loads fuel0 prompt0 v) = Some v' ->
          exists evs, trace v' = trace v ++ evs
                      /\ count_events is_submit evs <= 1).
Proof.
  intros H C St Rq F Sub L Ft.
  pose proof (tool_round_ok fuel tid run calls w1 run' r2 St Rq F Sub) as T.
  eexists. exists (map output_of (filter is_send_email calls)).
  split; [|split; [|split; [|split; [|split; [|split]]]]].
  - rewrite (handler_run _ _ _ _ _ H).
    rewrite (bind_done _ _ _ _ _ C), (bind_done _ _ _ _ _ T).
    eapply final_fetch_ok; [exact L | exact Ft].
  - simpl. rewrite <- !app_assoc. reflexivity.
  - apply headers_of_calls, F.
  - apply outputs_match.
  - intros. eexists. apply send_email_run.
  - simpl. rewrite (start_cycle_session _ _ _ _ _ _ _ C eq_refl). simpl.
    rewrite <- app_assoc. reflexivity.
  - intros fuel0 prompt0 v v' E. exact (one_round_at_most fuel0 prompt0 v v' E).
Qed.

End Handlers.

(** ** The first waiting loop, against a script *)

Lemma posted_cons st steps thread :
  posted steps (rev (step_posts st) ++ thread) = posted (st :: steps) thread.
Proof.
  unfold posted. simpl. rewrite rev_app_distr, <- app_assoc. reflexivity.
Qed.

Lemma query_count tid steps :
  count_events is_retrieve (flat_map (query_of tid) steps)
  = List.length steps.
Proof.
  induction steps as [|st steps IH]; simpl.
  - reflexivity.
  - unfold count_events in *. simpl. rewrite IH. reflexivity.
Qed.

(** The loop entered on the run of a polling step [st], with the polling
    steps [more] and then [last] still to come. *)
Lemma poll_scripted tid last rest (more : list Step) :
  in_polling (status (step_run last)) = false ->
  Forall polling_step more ->
  forall st fuel s ids thread tr,
    polling_step st ->
    List.length more < fuel ->
    poll fuel tid (step_run st)
         (mkWorld s (mkScripted ids (more ++ last :: rest) thread) tr)
    = Done (step_run last)
           (mkWorld s
              (mkScripted ids rest (posted (more ++ [last]) thread))
              (tr ++ flat_map (query_of tid) (st :: more))).
Proof.
  intros Hlast. induction 1 as [|st' more Hst' F IH];
    intros st fuel s ids thread tr Hst Hfuel.
  - destruct fuel as [|fuel]; [inversion Hfuel|]. simpl.
    unfold polling_step in Hst. rewrite Hst.
    cbv [bind emit api]. simpl.
    rewrite poll_exit by exact Hlast.
    unfold posted. simpl. rewrite app_nil_r, <- app_assoc. reflexivity.
  - destruct fuel as [|fuel]; [inversion Hfuel|]. simpl in Hfuel.
    cbn [poll]. unfold polling_step in Hst. rewrite Hst.
    cbv [bind emit api]. simpl.
    rewrite (IH st' fuel) by (assumption || lia).
    rewrite posted_cons. simpl. rewrite <- !app_assoc. reflexivity.
Qed.

(** C3.  Against a scripted run whose statuses are a finite prefix in
    [queued]/[in_progress] followed by a status outside that set, the first
    loop ends, given as many iterations as the prefix is long, on the run of
    that last status, having sent exactly one retrieve query for each
    element of the prefix, that is, for each status after the first, which
    [runs.create] reports: two for queued, in_progress, completed. *)
Theorem loop_a_terminates
        (prefix : list Step) (last : Step) (rest : list Step)
        (fuel : nat) (aid tid prompt : string)
        (s : Session) (ids : list string) (thread : list ThreadMessage)
        (tr : list Event) :
  Forall polling_step prefix ->
  in_polling (status (step_run last)) = false ->
  List.length prefix <= fuel ->
  start_cycle fuel aid tid prompt
    (mkWorld s (mkScripted ids (prefix ++ last :: rest) thread) tr)
  = Done (step_run last)
         (mkWorld
            (with_message (user_message prompt) s)
            (mkScripted ids rest
               (posted (prefix ++ [last])
                       (mkThreadMessage "user" [TextBlock prompt] :: thread)))
            (tr ++ opening aid tid prompt ++ flat_map (query_of tid) prefix))
  /\ count_events is_retrieve
       (opening aid tid prompt ++ flat_map (query_of tid) prefix)
     = List.length prefix.
Proof.
  intros F Hlast Hfuel. split.
  - rewrite start_cycle_run. cbv zeta. simpl.
    destruct prefix as [|st more]; simpl.
    + rewrite poll_exit by exact Hlast.
      unfold posted. simpl. rewrite !app_nil_r, <- app_assoc. reflexivity.
    + inversion F as [|? ? Hst F']; subst. simpl in Hfuel.
      rewrite (poll_scripted tid last rest more Hlast F' st fuel)
        by (assumption || lia).
      rewrite posted_cons. simpl. rewrite <- !app_assoc. reflexivity.
  - rewrite count_events_app, query_count. reflexivity.
Qed.

(** ** The second waiting loop *)

(** After the submission the local [run] still says [requires_action], so
    the second loop ends before its first query, whatever the service would
    have answered. *)
Lemma second_loop_idle {R : Type} {client : Client R}
      (fuel : nat) (tid : string) (run : Run) (w : World R) :
  status run = "requires_action" -> poll_again fuel tid run w = Done run w.
Proof.
  intros St. unfold poll_again. apply poll_exit. rewrite St. reflexivity.
Qed.

(** ** Examples on the scripted service *)

Import Examples.

(** C1, on the code.  After the submission the handler sends no retrieve
    query: the three answers the service had ready (queued, in progress,
    completed with the reply) are still unread when the messages are
    listed, and the text appended as the assistant's is the newest message
    at that time, the user's own prompt. *)
Theorem loop_b_never_polls :
  chat_input_handler Flat.loads 10 ask resumed =
  Done tt
    (mkWorld
       (mkSession (Some "asst_1") (Some "thread_1")
                  [user_message ask; assistant_message ask] [])
       (mkScripted []
          [ mkStep [] (run_in "queued");
            mkStep [] (run_in "in_progress");
            reply_step "The email has been sent." ]
          [mkThreadMessage "user" [TextBlock ask]])
       (opening "asst_1" "thread_1" ask
        ++ query_of "thread_1" (mkStep [] (run_in "queued"))
        ++ info_event
        :: email_events (JString "a@example.com") (JString "S") (JString "B")
        ++ [ Api (RunsSubmit "thread_1" "run_1"
                    [mkToolOutput "call_1" success_text]);
             Api (MessagesList "thread_1");
             St_chat "assistant" ask ])).
Proof. vm_compute. reflexivity. Qed.

Lemma blank_context_rejected_witness :
  blank "   " = true
  /\ provision "   " fresh =
     Done tt (mkWorld initial_session (remote fresh)
                      [St_warning empty_context_warning]).
Proof.
  split; [reflexivity|].
  apply (blank_context_rejected "   " fresh). reflexivity.
Defined.

Lemma missing_handle_guard_witness :
  chat_input_handler Flat.loads 10 ask fresh =
  Stopped (mkWorld initial_session (remote fresh)
                   [St_error no_assistant_error]).
Proof.
  apply (missing_handle_guard Flat.loads 10 ask fresh). left. reflexivity.
Defined.

(** The statuses queued, in_progress, completed: two queries. *)
Lemma loop_a_terminates_witness :
  (exists w',
      start_cycle 10 "asst_1" "thread_1" ask answering
      = Done (run_in "completed") w')
  /\ count_events is_retrieve
       (opening "asst_1" "thread_1" ask
        ++ flat_map (query_of "thread_1")
             [mkStep [] (run_in "queued"); mkStep [] (run_in "in_progress")])
     = 2.
Proof.
  destruct (loop_a_terminates
              [mkStep [] (run_in "queued"); mkStep [] (run_in "in_progress")]
              (reply_step "It is in the FAQ.") [] 10
              "asst_1" "thread_1" ask ready [] [] []) as [E C].
  - repeat constructor.
  - reflexivity.
  - simpl. lia.
  - split; [eexists; exact E | exact C].
Defined.

Lemma single_tool_round_witness :
  exists w',
    chat_input_handler Flat.loads 10 ask asking = Done tt w'
    /\ messages (session w') = [user_message ask; assistant_message ask].
Proof.
  edestruct (single_tool_round Flat.loads 10 ask asking)
    as (w' & outs & E & _ & _ & _ & _ & M & _).
  - reflexivity.
  - reflexivity.
  - reflexivity.
  - reflexivity.
  - repeat constructor.
    + intros _. eexists. reflexivity.
    + intros N. discriminate N.
  - reflexivity.
  - reflexivity.
  - reflexivity.
  - exists w'. split; [exact E | exact M].
Defined.

Lemma transcript_ordering_witness :
  (chat_input_handler Flat.loads 10 ask answering = Done tt answered
   /\ exists aid tid run w1 w2 m rest reply blocks,
       assistant_id (session answering) = Some aid
       /\ thread_id (session answering) = Some tid
       /\ start_cycle 10 aid tid ask answering = Done run w1
       /\ tool_round Flat.loads 10 tid run w1 = Done tt w2
       /\ messages_list tid (remote w2) = (inr (m :: rest), remote answered)
       /\ tm_content m = TextBlock reply :: blocks
       /\ session answered
          = with_message (assistant_message reply)
              (with_message (user_message ask) (session answering))
       /\ messages (session answered)
          = messages (session answering)
              ++ [user_message ask; assistant_message reply])
  /\ exists w',
      chat_input_handler Flat.loads 10 ask (mkWorld ready tt [])
      = Raised (APIError "Connection error.") w'
      /\ messages (session w') = [user_message ask].
Proof.
  assert (E : chat_input_handler Flat.loads 10 ask answering
              = Done tt answered) by (vm_compute; reflexivity).
  split.
  - split; [exact E|].
    exact (proj1 (transcript_ordering Flat.loads 10 ask) answering answered E).
  - apply (proj2 (transcript_ordering Flat.loads 10 ask)
                 (mkWorld ready tt []) "asst_1" "thread_1"
                 (APIError "Connection error.") tt).
    + reflexivity.
    + reflexivity.
Defined.

Lemma unknown_tool_call_omitted_witness :
  tool_round Flat.loads 10 "thread_1" (run_asking [mail_call; other_call])
             asking
  = tool_round Flat.loads 10 "thread_1" (run_asking [mail_call]) asking.
Proof.
  apply (unknown_tool_call_omitted Flat.loads 10 "thread_1" "run_1"
           [mail_call] [] other_call asking).
  discriminate.
Defined.

(** The run has failed and the newest message is the user's: its text is
    what the transcript gets as the assistant's. *)
Lemma newest_message_appended_witness :
  exists w',
    chat_input_handler Flat.loads 10 ask failing = Done tt w'
    /\ messages (session w') = [user_message ask; assistant_message ask].
Proof.
  eexists. split.
  - eapply proj2, proj2, (newest_message_appended Flat.loads 10 ask failing).
    + reflexivity.
    + reflexivity.
    + reflexivity.
    + reflexivity.
    + reflexivity.
  - reflexivity.
Defined.

Lemma provision_replaces_handles_witness :
  provision "FAQ" fresh =
  Done tt (mkWorld (mkSession (Some "asst_1") (Some "thread_1") [] [])
                   (mkScripted [] [] [])
                   (provision_events "FAQ" "file_1" "asst_1" "thread_1")).
Proof.
  apply (provision_replaces_handles
           "FAQ" fresh "file_1"
           (mkScripted ["asst_1"; "thread_1"] [] [])
           "asst_1" (mkScripted ["thread_1"] [] [])
           "thread_1" (mkScripted [] [] [])); reflexivity.
Defined.

Lemma unreadable_arguments_abort_cycle_witness :
  exists e w',
    chat_input_handler Flat.loads 10 ask asking_badly = Raised e w'
    /\ messages (session w') = [user_message ask].
Proof.
  edestruct (proj2 (unreadable_arguments_abort_cycle Flat.loads 10 ask)
                   asking_badly)
    as (e & w' & E & _ & _ & M).
  - reflexivity.
  - reflexivity.
  - reflexivity.
  - reflexivity.
  - right. left. reflexivity.
  - reflexivity.
  - right. eexists. split; [reflexivity|]. right. right. reflexivity.
  - exists e, w'. split; [exact E | exact M].
Defined.

(** ** The recipient list across provisioning *)
(** C9 fails on the code: an address added before the provisioner runs is
    still in the list after it. *)
Lemma recipients_survive_provisioning :
  add_email "a@example.com" fresh = Done tt with_recipient
  /\ provision "FAQ" with_recipient = Done tt reprovisioned
  /\ email_list (session reprovisioned) = ["a@example.com"]
  /\ ~ rebuilt_fully (session reprovisioned).
Proof.
  split; [vm_compute; reflexivity|].
  split; [vm_compute; reflexivity|].
  split; [reflexivity|].
  intros (a & t & E). discriminate E.
Qed.

(** * Further properties of the script *)

Section More.

Context {R : Type} {client : Client R}.
Variable json_loads : string -> option json.

(** ** The provisioner, call by call *)

Lemma provision_run (context : string) (w : World R) :
  blank context = false ->
  provision context w =
  let s := session w in
  let t0 := trace w
            ++ [St_spinner "Creating assistant and uploading file...";
                Api (FilesCreate "context.txt" (encode_utf8 context)
                                 "assistants")] in
  match files_create "context.txt" (encode_utf8 context) "assistants"
                     (remote w) with
  | (inl e, r1) => Raised e (mkWorld s r1 t0)
  | (inr file, r1) =>
      let t1 := t0 ++ [Api (AssistantsCreate (assistant_spec file))] in
      match assistants_create (assistant_spec file) r1 with
      | (inl e, r2) => Raised e (mkWorld s r2 t1)
      | (inr assistant, r2) =>
          match threads_create r2 with
          | (inl e, r3) =>
              Raised e
                (mkWorld (mkSession (Some assistant) (thread_id s)
                                    (messages s) (email_list s))
                         r3 (t1 ++ [Api ThreadsCreate]))
          | (inr thread, r3) =>
              Done tt
                (mkWorld (mkSession (Some assistant) (Some thread) []
                                    (email_list s))
                         r3
                         (trace w
                          ++ provision_events context file assistant thread))
          end
      end
  end.
Proof.
  intros B. unfold provision. rewrite truthy_strip, B. simpl.
  cbv [bind emit api set_assistant_id set_thread_id set_messages
       get_session put_session].
  simpl.
  destruct (files_create "context.txt" (encode_utf8 context) "assistants"
                         (remote w)) as [[e|file] r1]; simpl;
    [rewrite <- app_assoc; reflexivity|].
  destruct (assistants_create (assistant_spec file) r1)
    as [[e|assistant] r2]; simpl; [rewrite <- !app_assoc; reflexivity|].
  destruct (threads_create r2) as [[e|thread] r3]; simpl;
    rewrite <- !app_assoc; reflexivity.
Qed.

Lemma provision_blank (context : string) (w : World R) :
  blank context = true ->
  provision context w =
  Done tt (mkWorld (session w) (remote w)
                   (trace w ++ [St_warning empty_context_warning])).
Proof.
  intros B. unfold provision. rewrite truthy_strip, B. reflexivity.
Qed.

(** X1.  When the creation of the thread fails after the assistant has
    been created, the exception leaves the session with the new assistant
    identifier beside the old thread identifier, the old transcript and the
    old list of addresses; if both identifiers are non-empty the guard of
    the next prompt cycle passes with this pair. *)
Theorem provision_half_done
        (context : string) (w : World R) file r1 assistant r2 e r3 :
  blank context = false ->
  files_create "context.txt" (encode_utf8 context) "assistants" (remote w)
  = (inr file, r1) ->
  assistants_create (assistant_spec file) r1 = (inr assistant, r2) ->
  threads_create r2 = (inl e, r3) ->
  exists w',
    provision context w = Raised e w'
    /\ session w'
       = mkSession (Some assistant) (thread_id (session w))
                   (messages (session w)) (email_list (session w))
    /\ remote w' = r3
    /\ forall old,
        thread_id (session w) = Some old ->
        truthy assistant = true -> truthy old = true ->
        handles (session w') = Some (assistant, old).
Proof.
  intros B F A T. rewrite (provision_run _ _ B). cbv zeta.
  rewrite F, A, T. eexists. split; [reflexivity|]. repeat split.
  intros old Ho Ta To. unfold handles. simpl. rewrite Ho, Ta, To.
  reflexivity.
Qed.

(** X2.  The provisioner never stops the script, and when it ends by an
    exception the thread identifier, the transcript and the list of
    addresses are what they were. *)
Theorem provision_failure_keeps_conversation
        (context : string) (w : World R) :
  match provision context w with
  | Raised _ w' =>
      thread_id (session w') = thread_id (session w)
      /\ messages (session w') = messages (session w)
      /\ email_list (session w') = email_list (session w)
  | Stopped _ => False
  | Done _ w' => email_list (session w') = email_list (session w)
  | OutOfFuel => False
  end.
Proof.
  destruct (blank context) eqn:B.
  - rewrite (provision_blank _ _ B). reflexivity.
  - rewrite (provision_run _ _ B). cbv zeta.
    destruct (files_create "context.txt" (encode_utf8 context) "assistants"
                           (remote w)) as [[e|file] r1];
      [repeat split|].
    destruct (assistants_create (assistant_spec file) r1)
      as [[e|assistant] r2]; [repeat split|].
    destruct (threads_create r2) as [[e|thread] r3]; repeat split.
Qed.

(** X3.  However the provisioner ends, the remote calls it has made are
    creations of a file, an assistant or a thread, at most three of them:
    it posts no message, starts no run and submits nothing. *)
Theorem provision_calls (context : string) (w w' : World R) :
  world_of (provision context w) = Some w' ->
  exists evs,
    trace w' = trace w ++ evs
    /\ count_events is_api evs <= 3
    /\ count_events is_api evs = count_events is_creation evs.
Proof.
  destruct (blank context) eqn:B.
  - rewrite (provision_blank _ _ B). intros H. injection H as <-.
    eexists. split; [reflexivity|]. split; [cbv; lia | reflexivity].
  - rewrite (provision_run _ _ B). cbv zeta.
    destruct (files_create "context.txt" (encode_utf8 context) "assistants"
                           (remote w)) as [[e|file] r1].
    { intros H. injection H as <-. eexists. split; [reflexivity|].
      split; [cbv; lia | reflexivity]. }
    destruct (assistants_create (assistant_spec file) r1)
      as [[e|assistant] r2].
    { intros H. injection H as <-. eexists. split.
      - simpl. rewrite <- app_assoc. reflexivity.
      - split; [cbv; lia | reflexivity]. }
    destruct (threads_create r2) as [[e|thread] r3];
      intros H; injection H as <-; eexists; (split;
        [simpl; rewrite <- ?app_assoc; reflexivity
        | split; [cbv; lia | reflexivity]]).
Qed.

(** ** The list of addresses *)

(** X4.  Clicking "Add Email" for a series of texts appends the non-empty
    ones to the list, in order, as they are: nothing is trimmed, checked or
    deduplicated, an empty text only shows a warning, and neither the
    handles, the transcript nor the remote service are touched. *)
Theorem add_all_appends (inputs : list string) (w : World R) :
  add_all inputs w =
  Done tt (mkWorld (with_emails (filter truthy inputs) (session w))
                   (remote w)
                   (trace w ++ map add_email_event inputs)).
Proof.
  revert w. induction inputs as [|a inputs IH]; intros w; simpl.
  - unfold ret, with_emails. rewrite !app_nil_r. destruct w as [[] ? ?].
    reflexivity.
  - unfold bind at 1. unfold add_email, add_email_event.
    destruct (truthy a); simpl.
    + cbv [bind append_email get_session put_session emit]. rewrite IH.
      unfold with_emails. simpl. rewrite <- !app_assoc. reflexivity.
    + unfold emit. rewrite IH. unfold with_emails. simpl.
      rewrite <- !app_assoc. reflexivity.
Qed.

(** ** Handlers that never stop the script *)

Lemma never_stops_bind {A B} (m : M R A) (k : A -> M R B) :
  never_stops m -> (forall a, never_stops (k a)) ->
  never_stops (bind m k).
Proof.
  intros Hm Hk w w'. unfold bind. specialize (Hm w).
  destruct (m w) as [a w1|e w1|w1|]; try discriminate.
  - apply Hk.
  - exfalso. exact (Hm w1 eq_refl).
Qed.

Lemma never_stops_api {A} c (op : R -> Reply R A) :
  never_stops (api c op).
Proof.
  intros w w'. unfold api. destruct (op (remote w)) as [[e|a] r];
    discriminate.
Qed.

Lemma never_stops_lift {A} (x : Exn + A) : never_stops (R := R) (lift x).
Proof. intros w w'. destruct x; discriminate. Qed.

Lemma never_stops_poll fuel tid : forall run,
  never_stops (R := R) (poll fuel tid run).
Proof.
  induction fuel as [|fuel IH]; intros run; simpl;
    destruct (in_polling (status run)); try (intros w w'; discriminate).
  apply never_stops_bind; [intros w w'; discriminate | intros _].
  apply never_stops_bind; [apply never_stops_api | exact IH].
Qed.

Lemma never_stops_start_cycle fuel aid tid prompt :
  never_stops (R := R) (start_cycle fuel aid tid prompt).
Proof.
  intros w w'. rewrite start_cycle_run. cbv zeta.
  destruct (messages_create tid "user" prompt (remote w)) as [[e|u] r1];
    [discriminate|].
  destruct (runs_create tid aid r1) as [[e|run] r2]; [discriminate|].
  apply never_stops_poll.
Qed.

Lemma never_stops_dispatch calls : forall outs,
  never_stops (R := R) (dispatch json_loads calls outs).
Proof.
  induction calls as [|tc calls IH]; intros outs; simpl.
  - intros w w'. discriminate.
  - apply never_stops_bind; [|intros a; apply IH].
    intros w w'. destruct (is_send_email tc) eqn:N.
    + destruct (decode json_loads tc) as [e|[[to subject] body]] eqn:D.
      * rewrite (dispatch_one_bad _ _ _ _ _ N D). discriminate.
      * rewrite (dispatch_one_ok _ _ _ _ _ _ _ N D). discriminate.
    + rewrite (dispatch_one_skip _ _ _ _ N). discriminate.
Qed.

Lemma never_stops_tool_round fuel tid run :
  never_stops (R := R) (tool_round json_loads fuel tid run).
Proof.
  unfold tool_round. destruct (status run =? "requires_action");
    [|intros w w'; discriminate].
  apply never_stops_bind; [apply never_stops_lift | intros calls].
  apply never_stops_bind; [apply never_stops_dispatch | intros outs].
  apply never_stops_bind; [apply never_stops_api | intros _].
  apply never_stops_bind; [apply never_stops_poll | intros _].
  intros w w'. discriminate.
Qed.

(** The final retrieval, call by call. *)
Lemma final_fetch_run tid (w : World R) :
  final_fetch tid w =
  let t1 := trace w ++ [Api (MessagesList tid)] in
  match messages_list tid (remote w) with
  | (inl e, r') => Raised e (mkWorld (session w) r' t1)
  | (inr data, r') =>
      match first_text data with
      | inl e => Raised e (mkWorld (session w) r' t1)
      | inr v =>
          Done tt (mkWorld (with_message (assistant_message v) (session w))
                           r' (t1 ++ [St_chat "assistant" v]))
      end
  end.
Proof.
  cbv [final_fetch bind api emit append_message get_session put_session lift
       ret raise].
  destruct (messages_list tid (remote w)) as [[e|data] r']; [reflexivity|].
  destruct (first_text data) as [e|v]; [reflexivity|].
  simpl. rewrite <- app_assoc. reflexivity.
Qed.

(** ** What a prompt cycle does to the session *)

Lemma cycle_sessions (fuel : nat) (prompt : string) (w : World R) :
  match chat_input_handler json_loads fuel prompt w with
  | Done _ w' =>
      exists reply,
        session w'
        = with_message (assistant_message reply)
            (with_message (user_message prompt) (session w))
  | Raised _ w' => session w' = with_message (user_message prompt) (session w)
  | Stopped w' => session w' = session w /\ handles (session w) = None
  | OutOfFuel => True
  end.
Proof.
  destruct (handles (session w)) as [[aid tid]|] eqn:H.
  2:{ rewrite (handler_guard _ _ _ _ H). split; reflexivity. }
  rewrite (handler_run _ _ _ _ _ _ H). unfold bind at 1.
  pose proof (start_cycle_session fuel aid tid prompt w) as Sc.
  pose proof (never_stops_start_cycle fuel aid tid prompt w) as Nc.
  destruct (start_cycle fuel aid tid prompt w) as [run w1|e w1|w1|];
    [|exact (Sc _ _ eq_refl eq_refl) | exfalso; exact (Nc w1 eq_refl) | exact I].
  specialize (Sc _ _ eq_refl eq_refl). unfold bind at 1.
  pose proof (tool_round_session json_loads fuel tid run w1) as St.
  pose proof (never_stops_tool_round fuel tid run w1) as Nt.
  destruct (tool_round json_loads fuel tid run w1) as [[] w2|e w2|w2|];
    [|rewrite <- Sc; exact (St _ eq_refl)
     | exfalso; exact (Nt w2 eq_refl) | exact I].
  assert (S2 : session w2 = session w1) by exact (St _ eq_refl).
  rewrite final_fetch_run. cbv zeta.
  destruct (messages_list tid (remote w2)) as [[e|data] r']; simpl.
  - congruence.
  - destruct (first_text data) as [e|v]; simpl.
    + congruence.
    + exists v. rewrite S2, Sc. reflexivity.
Qed.

(** X5.  A prompt cycle changes nothing of the session but the transcript.
    Ended normally, it has appended the user message and one assistant
    message; ended by an exception, wherever it was raised, the user message
    alone; and it stops the script only at the guard, with the session as it
    was. *)
Theorem cycle_session_effect (fuel : nat) (prompt : string) (w : World R) :
  match chat_input_handler json_loads fuel prompt w with
  | Done _ w' =>
      exists reply,
        session w'
        = with_message (assistant_message reply)
            (with_message (user_message prompt) (session w))
  | Raised _ w' => session w' = with_message (user_message prompt) (session w)
  | Stopped w' => session w' = session w /\ handles (session w) = None
  | OutOfFuel => True
  end.
Proof. apply cycle_sessions. Qed.

(** ** Chat bubbles and transcript *)

Lemma bubbles_agree_refl (w : World R) : bubbles_agree w w.
Proof. exists [], []. now rewrite !app_nil_r. Qed.

Lemma bubbles_agree_trans (w w1 w2 : World R) :
  bubbles_agree w w1 -> bubbles_agree w1 w2 -> bubbles_agree w w2.
Proof.
  intros (e1 & n1 & T1 & M1 & F1) (e2 & n2 & T2 & M2 & F2).
  exists (e1 ++ e2), (n1 ++ n2). repeat split.
  - rewrite T2, T1, app_assoc. reflexivity.
  - rewrite M2, M1, app_assoc. reflexivity.
  - unfold history in *. rewrite filter_app, map_app, F1, F2. reflexivity.
Qed.

Lemma count_zero_filter_nil p (evs : list Event) :
  count_events p evs = 0 -> filter p evs = [].
Proof. unfold count_events. apply length_zero_iff_nil. Qed.

Lemma calm_bubbles_agree (w w' : World R) : calm w w' -> bubbles_agree w w'.
Proof.
  intros (S & evs & A & C). exists evs, []. repeat split.
  - exact A.
  - rewrite S, app_nil_r. reflexivity.
  - apply count_zero_filter_nil, C.
Qed.

Lemma calm_refl (w : World R) : calm w w.
Proof. split; [reflexivity | apply quiet_refl]. Qed.

Lemma calm_trans (w w1 w2 : World R) : calm w w1 -> calm w1 w2 -> calm w w2.
Proof.
  intros (S1 & Q1) (S2 & Q2). split; [congruence|].
  eapply quiet_trans; eassumption.
Qed.

Lemma calm_emit e : is_chat e = false -> post (R := R) calm (emit e).
Proof.
  intros H w w' E. split.
  - exact (session_emit e w w' E).
  - exact (quiet_emit is_chat e H w w' E).
Qed.

Lemma calm_api {A} c (op : R -> Reply R A) : post calm (api c op).
Proof.
  intros w w' E. split.
  - exact (session_api c op w w' E).
  - exact (quiet_api is_chat c op eq_refl w w' E).
Qed.

Lemma calm_poll fuel tid run : post (R := R) calm (poll fuel tid run).
Proof.
  apply post_poll.
  - exact calm_refl.
  - exact calm_trans.
  - apply calm_emit. reflexivity.
  - intros. apply calm_api.
Qed.

Lemma calm_ext (w : World R) evs :
  count_events is_chat evs = 0 ->
  calm w (mkWorld (session w) (remote w) (trace w ++ evs)).
Proof. intros C. split; [reflexivity|]. exists evs. now split. Qed.

Lemma calm_dispatch_one tc outs :
  post (R := R) calm (dispatch_one json_loads tc outs).
Proof.
  intros w w'. destruct (is_send_email tc) eqn:N.
  - destruct (decode json_loads tc) as [e|[[to subject] body]] eqn:D.
    + rewrite (dispatch_one_bad _ _ _ _ _ N D). intros H. injection H as <-.
      apply calm_ext. reflexivity.
    + rewrite (dispatch_one_ok _ _ _ _ _ _ _ N D). intros H.
      injection H as <-. apply calm_ext. reflexivity.
  - rewrite (dispatch_one_skip _ _ _ _ N). intros H. injection H as <-.
    apply calm_refl.
Qed.

Lemma calm_dispatch calls : forall outs,
  post (R := R) calm (dispatch json_loads calls outs).
Proof.
  induction calls as [|tc calls IH]; intros outs; simpl.
  - apply post_ret, calm_refl.
  - apply post_seq; [exact calm_trans | apply calm_dispatch_one | intros a].
    apply IH.
Qed.

Lemma calm_tool_round fuel tid run :
  post (R := R) calm (tool_round json_loads fuel tid run).
Proof.
  unfold tool_round. destruct (status run =? "requires_action").
  2:{ apply post_ret, calm_refl. }
  apply post_seq; [exact calm_trans | apply post_lift, calm_refl | intros].
  apply post_seq; [exact calm_trans | apply calm_dispatch | intros].
  apply post_seq; [exact calm_trans | apply calm_api | intros].
  apply post_seq; [exact calm_trans | apply calm_poll | intros].
  apply post_ret, calm_refl.
Qed.

Lemma bubbles_start_cycle fuel aid tid prompt :
  post (R := R) bubbles_agree (start_cycle fuel aid tid prompt).
Proof.
  intros w w'. rewrite start_cycle_run. cbv zeta.
  destruct (messages_create tid "user" prompt (remote w)) as [[e|u] r1].
  { intros H. injection H as <-. eexists. exists [user_message prompt].
    repeat split. }
  destruct (runs_create tid aid r1) as [[e|run] r2].
  { intros H. injection H as <-. eexists. exists [user_message prompt].
    split; [simpl; rewrite <- app_assoc; reflexivity|]. repeat split. }
  intros H. apply calm_poll in H. apply calm_bubbles_agree in H.
  eapply bubbles_agree_trans; [|exact H].
  eexists. exists [user_message prompt].
  split; [simpl; rewrite <- app_assoc; reflexivity|]. repeat split.
Qed.

Lemma bubbles_final_fetch tid :
  post (R := R) bubbles_agree (final_fetch tid).
Proof.
  intros w w'. rewrite final_fetch_run. cbv zeta.
  destruct (messages_list tid (remote w)) as [[e|data] r'].
  { intros H. injection H as <-. exists [Api (MessagesList tid)], []. simpl.
    rewrite app_nil_r. repeat split. }
  destruct (first_text data) as [e|v]; intros H; injection H as <-.
  - exists [Api (MessagesList tid)], []. simpl. rewrite app_nil_r.
    repeat split.
  - eexists. exists [assistant_message v].
    split; [simpl; rewrite <- app_assoc; reflexivity|]. repeat split.
Qed.

Lemma bubbles_cycle fuel prompt :
  post (R := R) bubbles_agree (chat_input_handler json_loads fuel prompt).
Proof.
  intros w w'. destruct (handles (session w)) as [[aid tid]|] eqn:H.
  - rewrite (handler_run _ _ _ _ _ _ H). clear H. revert w w'.
    apply post_seq;
      [exact bubbles_agree_trans | apply bubbles_start_cycle | intros run].
    apply post_seq; [exact bubbles_agree_trans | | intros _].
    + apply (post_weaken calm); [exact calm_bubbles_agree|].
      apply calm_tool_round.
    + apply bubbles_final_fetch.
  - rewrite (handler_guard _ _ _ _ H). intros E. injection E as <-.
    exists [St_error no_assistant_error], []. simpl. rewrite app_nil_r.
    repeat split.
Qed.

(** X6.  However a prompt cycle ends, the chat bubbles it has shown are
    exactly those of the messages it has appended to the transcript, in the
    same order: what the next run of the script draws from the transcript
    is what was on the page. *)
Theorem bubbles_follow_transcript
        (fuel : nat) (prompt : string) (w w' : World R) :
  world_of (chat_input_handler json_loads fuel prompt w) = Some w' ->
  exists evs new,
    trace w' = trace w ++ evs
    /\ messages (session w') = messages (session w) ++ new
    /\ filter is_chat evs = history new.
Proof. apply bubbles_cycle. Qed.

(** ** The waiting loop on any service *)

Lemma turns_counts tid rids :
  count_events is_sleep (turns tid rids) = List.length rids
  /\ count_events is_retrieve (turns tid rids) = List.length rids.
Proof.
  unfold count_events. induction rids as [|rid rids [IH1 IH2]]; simpl.
  - split; reflexivity.
  - rewrite IH1, IH2. split; reflexivity.
Qed.

Lemma poll_shape (fuel : nat) (tid : string) :
  forall (run : Run) (w w' : World R),
    world_of (poll fuel tid run w) = Some w' ->
    exists rids,
      trace w' = trace w ++ turns tid rids
      /\ List.length rids <= fuel
      /\ count_events is_sleep (turns tid rids)
         = count_events is_retrieve (turns tid rids)
      /\ (forall rid rest, rids = rid :: rest -> rid = run_id run)
      /\ follows tid run (remote w) rids
      /\ session w' = session w
      /\ (forall run', poll fuel tid run w = Done run' w' ->
                       in_polling (status run') = false).
Proof.
  induction fuel as [|fuel IH]; intros run w w'.
  - simpl. destruct (in_polling (status run)) eqn:P; [discriminate|].
    intros H. injection H as <-. exists []. simpl. rewrite app_nil_r.
    repeat split; try lia; try discriminate.
    intros run' E. injection E as <-. exact P.
  - cbn [poll]. destruct (in_polling (status run)) eqn:P.
    + cbv [bind emit api]. simpl.
      destruct (runs_retrieve tid (run_id run) (remote w))
        as [[e|run1] r1] eqn:Q.
      * intros H. injection H as <-. exists [run_id run]. simpl.
        rewrite <- app_assoc, Q. repeat split; try lia; try assumption.
        -- intros rid rest E. now injection E.
        -- discriminate.
      * intros H.
        destruct (IH _ _ _ H) as (rids & T & L & C & _ & Fo & S & D).
        exists (run_id run :: rids). simpl in *.
        destruct (turns_counts tid rids) as [C1 C2].
        rewrite Q. repeat split; try assumption.
        -- rewrite T. simpl. rewrite <- !app_assoc. reflexivity.
        -- lia.
        -- unfold count_events in *. simpl. congruence.
        -- intros rid rest E. now injection E.
    + intros H. injection H as <-. exists []. simpl. rewrite app_nil_r.
      repeat split; try lia; try discriminate.
      intros run' E. injection E as <-. exact P.
Qed.

(** X7.  However the waiting loop ends, all it has done is a series of
    turns, each a sleep of one second followed by one retrieve query for the
    run last received: the first for the run it was entered with, each
    later one for the run the service answered the query before with, every
    one of them for a run in the polling set; the session is untouched.
    When it returns, the run it returns is outside the polling set. *)
Theorem poll_turns (fuel : nat) (tid : string) :
  forall (run : Run) (w w' : World R),
    world_of (poll fuel tid run w) = Some w' ->
    exists rids,
      trace w' = trace w ++ turns tid rids
      /\ List.length rids <= fuel
      /\ count_events is_sleep (turns tid rids)
         = count_events is_retrieve (turns tid rids)
      /\ (forall rid rest, rids = rid :: rest -> rid = run_id run)
      /\ follows tid run (remote w) rids
      /\ session w' = session w
      /\ (forall run', poll fuel tid run w = Done run' w' ->
                       in_polling (status run') = false).
Proof. apply poll_shape. Qed.

Lemma poll_stalls (tid : string) :
  always_polling (R := R) ->
  forall fuel run (w : World R),
    in_polling (status run) = true -> poll fuel tid run w = OutOfFuel.
Proof.
  intros Hs. induction fuel as [|fuel IH]; intros run w P; cbn [poll];
    rewrite P; [reflexivity|].
  cbv [bind emit api]. simpl.
  destruct (Hs tid (run_id run) (remote w)) as (run1 & r1 & Q & P1).
  rewrite Q. apply IH, P1.
Qed.

(** X8.  The waiting loop has no bound of its own: on a service that keeps
    reporting the run as queued or in progress, a prompt cycle with both
    handles present and a run started does not end, however many turns it is
    given. *)
Theorem cycle_waits_forever
        (prompt : string) (w : World R) aid tid u r1 run r2 :
  always_polling (R := R) ->
  handles (session w) = Some (aid, tid) ->
  messages_create tid "user" prompt (remote w) = (inr u, r1) ->
  runs_create tid aid r1 = (inr run, r2) ->
  in_polling (status run) = true ->
  forall fuel, chat_input_handler json_loads fuel prompt w = OutOfFuel.
Proof.
  intros Hs H Mc Rc P fuel. rewrite (handler_run _ _ _ _ _ _ H).
  unfold bind at 1. rewrite start_cycle_run. cbv zeta. rewrite Mc, Rc.
  rewrite (poll_stalls tid Hs fuel run _ P). reflexivity.
Qed.

(** ** The tool round, failure by failure *)

Lemma dispatch_app (l1 l2 : list ToolCall) : forall outs (w : World R),
  dispatch json_loads (l1 ++ l2) outs w =
  (outs1 <- dispatch json_loads l1 outs ;; dispatch json_loads l2 outs1) w.
Proof.
  induction l1 as [|tc l1 IH]; intros outs w; simpl.
  - reflexivity.
  - unfold bind at 1 2 3.
    destruct (dispatch_one json_loads tc outs w) as [o w1|e w1|w1|];
      try reflexivity.
    rewrite IH. reflexivity.
Qed.

(** X9.  The dispatch runs the executor call by call: when the payload of
    a [send_email] call cannot be read, the calls before it have already
    been carried out, one executor run for each named [send_email], and
    the round ends by the exception of that call with nothing submitted
    and the service not contacted. *)
Theorem emails_before_failure
        (fuel : nat) (tid : string) (run : Run) (w : World R)
        (before after : list ToolCall) (bad : ToolCall) (e : Exn) :
  status run = "requires_action" ->
  required_action run = Some (before ++ bad :: after) ->
  Forall (readable json_loads) before ->
  is_send_email bad = true ->
  decode json_loads bad = inl e ->
  tool_round json_loads fuel tid run w =
  Raised e
    (mkWorld (session w) (remote w)
       (trace w ++ flat_map (call_events json_loads) before ++ [info_event]))
  /\ count_events is_mock_header
       (flat_map (call_events json_loads) before ++ [info_event])
     = List.length (filter is_send_email before)
  /\ count_events is_api
       (flat_map (call_events json_loads) before ++ [info_event]) = 0.
Proof.
  intros St Rq F N D. split; [|split].
  - rewrite (tool_round_run _ _ _ _ _ _ St Rq). apply bind_raised.
    rewrite dispatch_app.
    rewrite (bind_done _ _ _ _ _ (dispatch_ok json_loads before [] w F)).
    simpl. apply bind_raised.
    rewrite (dispatch_one_bad _ _ _ _ _ N D). simpl.
    rewrite <- app_assoc. reflexivity.
  - rewrite count_events_app, (headers_of_calls _ _ F). cbn. lia.
  - pose proof (local_dispatch json_loads before [] w) as L.
    rewrite (dispatch_ok json_loads before [] w F) in L.
    destruct (L _ eq_refl) as (_ & _ & evs & A & C).
    unfold added in A. simpl in A. apply app_inv_head in A. subst evs.
    rewrite count_events_app, C. reflexivity.
Qed.

(** X10.  The submission comes after the executor: when the service
    refuses the batch, every [send_email] call of the round has already
    been carried out, and the round ends by the exception of the
    submission. *)
Theorem emails_before_submission
        (fuel : nat) (tid : string) (run : Run) (w : World R)
        (calls : list ToolCall) (e : Exn) (r2 : R) :
  status run = "requires_action" ->
  required_action run = Some calls ->
  Forall (readable json_loads) calls ->
  runs_submit_tool_outputs tid (run_id run)
    (map output_of (filter is_send_email calls)) (remote w) = (inl e, r2) ->
  tool_round json_loads fuel tid run w =
  Raised e
    (mkWorld (session w) r2
       (trace w ++ flat_map (call_events json_loads) calls
        ++ [Api (RunsSubmit tid (run_id run)
                   (map output_of (filter is_send_email calls)))]))
  /\ count_events is_mock_header (flat_map (call_events json_loads) calls)
     = List.length (filter is_send_email calls).
Proof.
  intros St Rq F Sub. split; [|apply headers_of_calls, F].
  rewrite (tool_round_run _ _ _ _ _ _ St Rq).
  rewrite (bind_done _ _ _ _ _ (dispatch_ok json_loads calls [] w F)).
  simpl. unfold bind, api. simpl. rewrite Sub.
  rewrite <- app_assoc. reflexivity.
Qed.

Lemma filter_none {A} (p : A -> bool) (l : list A) :
  forallb (fun x => negb (p x)) l = true -> filter p l = [].
Proof.
  induction l as [|a l IH]; simpl; [reflexivity|].
  destruct (p a); simpl; [discriminate | exact IH].
Qed.

Lemma call_events_none calls :
  forallb (fun tc => negb (is_send_email tc)) calls = true ->
  flat_map (call_events json_loads) calls = [].
Proof.
  induction calls as [|tc calls IH]; simpl; [reflexivity|].
  unfold call_events at 1. destruct (is_send_email tc); simpl;
    [discriminate | exact IH].
Qed.

(** X11.  A run that asks for action without any call named
    [send_email], with no call at all or with calls under other names
    only, still gets a submission: the round is the submission of the empty
    list of outputs and nothing else. *)
Theorem empty_batch_submitted
        (fuel : nat) (tid : string) (run : Run) (w : World R)
        (calls : list ToolCall) :
  status run = "requires_action" ->
  required_action run = Some calls ->
  forallb (fun tc => negb (is_send_email tc)) calls = true ->
  tool_round json_loads fuel tid run w =
  (api (RunsSubmit tid (run_id run) [])
       (runs_submit_tool_outputs tid (run_id run) []) ;;
   ret tt) w.
Proof.
  intros St Rq N. rewrite (tool_round_run _ _ _ _ _ _ St Rq).
  assert (F : Forall (readable json_loads) calls).
  { apply Forall_forall. intros tc I Hs.
    rewrite forallb_forall in N. apply N in I. rewrite Hs in I.
    discriminate. }
  rewrite (bind_done _ _ _ _ _ (dispatch_ok json_loads calls [] w F)).
  rewrite (filter_none _ _ N), (call_events_none _ N). simpl.
  rewrite app_nil_r. destruct w. reflexivity.
Qed.

(** X12.  The exception of an unreadable payload tells what was wrong
    with it: [JSONDecodeError] when it is not JSON, [TypeError] when it
    decodes to something that is not a dict, and otherwise [KeyError] for
    the first of [to], [subject], [body] that is missing, whatever else is
    missing too.  In each case the request has been announced and the
    executor has not run. *)
Theorem dispatch_one_errors
        (tc : ToolCall) (outs : list ToolOutput) (w : World R) :
  fn_name tc = "send_email" ->
  let failed e :=
    dispatch_one json_loads tc outs w
    = Raised e (mkWorld (session w) (remote w) (trace w ++ [info_event])) in
  (json_loads (fn_arguments tc) = None -> failed JSONDecodeError)
  /\ (forall v, json_loads (fn_arguments tc) = Some v ->
                not_a_dict v -> failed TypeError)
  /\ (forall d k, json_loads (fn_arguments tc) = Some (JObject d) ->
                  first_missing d = Some k -> failed (KeyError k)).
Proof.
  intros N failed. subst failed.
  assert (N' : is_send_email tc = true).
  { unfold is_send_email. rewrite N. reflexivity. }
  split; [|split].
  - intros L. apply (dispatch_one_bad _ _ _ _ _ N').
    unfold decode, loads. rewrite L. reflexivity.
  - intros v L Hv. apply (dispatch_one_bad _ _ _ _ _ N').
    unfold decode, loads. rewrite L. destruct v; simpl in *;
      try reflexivity. destruct Hv.
  - intros d k L M. apply (dispatch_one_bad _ _ _ _ _ N').
    unfold decode, loads. rewrite L. unfold first_missing in M. simpl.
    destruct (dict_get "to" d); [|now injection M as <-].
    destruct (dict_get "subject" d); [|now injection M as <-].
    destruct (dict_get "body" d); [discriminate | now injection M as <-].
Qed.

(** ** The final retrieval, failure by failure *)

(** X13.  The final retrieval reads [data[0].content[0].text.value] with
    no check: with no message in the thread, or a newest message without
    content, it ends by [IndexError]; with a newest message that begins
    with an image, by [AttributeError], even if a text follows.  In each
    case the list has been asked for and the transcript gets no assistant
    message. *)
Theorem final_fetch_errors (tid : string) (w : World R) data r' :
  messages_list tid (remote w) = (inr data, r') ->
  let failed e :=
    final_fetch tid w
    = Raised e (mkWorld (session w) r'
                        (trace w ++ [Api (MessagesList tid)])) in
  (data = [] -> failed IndexError)
  /\ (forall m rest, data = m :: rest -> tm_content m = [] ->
                     failed IndexError)
  /\ (forall m rest f blocks,
        data = m :: rest -> tm_content m = ImageFileBlock f :: blocks ->
        failed AttributeError).
Proof.
  intros L failed. subst failed. rewrite final_fetch_run. cbv zeta.
  rewrite L. split; [|split].
  - intros ->. reflexivity.
  - intros m rest -> C. simpl. rewrite C. reflexivity.
  - intros m rest f blocks -> C. simpl. rewrite C. reflexivity.
Qed.

(** ** Provisioning, then a prompt *)

(** X14.  A successful provisioning starts the conversation afresh: after
    the first prompt cycle that follows it and ends normally, the
    transcript holds that prompt and its reply and nothing older, while the
    addresses entered before are still in their list. *)
Theorem provision_then_prompt
        (fuel : nat) (context prompt : string) (w w1 w2 : World R) :
  blank context = false ->
  provision context w = Done tt w1 ->
  chat_input_handler json_loads fuel prompt w1 = Done tt w2 ->
  exists reply,
    messages (session w2) = [user_message prompt; assistant_message reply]
    /\ email_list (session w2) = email_list (session w).
Proof.
  intros B P C. rewrite (provision_run _ _ B) in P. cbv zeta in P.
  destruct (files_create "context.txt" (encode_utf8 context) "assistants"
                         (remote w)) as [[e|file] r1]; [discriminate|].
  destruct (assistants_create (assistant_spec file) r1)
    as [[e|assistant] r2]; [discriminate|].
  destruct (threads_create r2) as [[e|thread] r3]; [discriminate|].
  injection P as <-.
  pose proof (cycle_sessions fuel prompt
                (mkWorld (mkSession (Some assistant) (Some thread) []
                                    (email_list (session w)))
                         r3
                         (trace w ++ provision_events context file
                                                      assistant thread)))
    as S.
  rewrite C in S. destruct S as (reply & S). exists reply.
  rewrite S. split; reflexivity.
Qed.

(** ** Runs of the whole script *)

Lemma init_stored (s : Session) : init_session_state (stored s) = s.
Proof. destruct s. reflexivity. Qed.

Lemma bubbles_app (a b : list PageItem) :
  bubbles (a ++ b) = bubbles a ++ bubbles b.
Proof. unfold bubbles. apply flat_map_app. Qed.

Lemma bubbles_events (evs : list Event) :
  bubbles (map Ev evs) = filter is_chat evs.
Proof.
  induction evs as [|e evs IH]; simpl; [reflexivity|].
  rewrite IH. destruct (is_chat e); reflexivity.
Qed.

Lemma bubbles_history (msgs : list Message) :
  bubbles (map Ev (history msgs)) = history msgs.
Proof.
  rewrite bubbles_events. unfold history.
  induction msgs as [|m msgs IH]; simpl; [reflexivity|]. now rewrite IH.
Qed.

Lemma bubbles_email_display (l : list string) : bubbles (email_display l) = [].
Proof. destruct l; reflexivity. Qed.

(** A run in which no button was clicked, up to the chat input. *)
Lemma script_no_click (fuel : nat) (inp : Inputs) (s : Session) (r : R) key :
  in_secret inp = Some key -> in_create inp = false -> in_add inp = false ->
  script json_loads fuel inp (stored s) r =
  run_handler (on_chat_input json_loads fuel (in_chat inp))
    (mkPage s r
       (Ev (St_success key_loaded)
        :: email_display (email_list s) ++ map Ev (history (messages s))))
    Finished.
Proof.
  intros K C A. unfold script. rewrite K, C, A, init_stored.
  cbv [when_clicked run_handler ret show absorb]. simpl.
  rewrite <- ?app_assoc. reflexivity.
Qed.

Lemma idle_run_keeps_state_aux
      (fuel : nat) (inp : Inputs) (s : Session) (r : R) key :
  in_secret inp = Some key -> in_create inp = false -> in_add inp = false ->
  in_chat inp = None ->
  script json_loads fuel inp (stored s) r =
  Finished
    (mkPage s r
       (Ev (St_success key_loaded)
        :: email_display (email_list s) ++ map Ev (history (messages s)))).
Proof.
  intros K C A I. rewrite (script_no_click _ _ _ _ _ K C A).
  unfold run_handler, on_chat_input. rewrite I. simpl. unfold absorb. simpl.
  rewrite app_nil_r. reflexivity.
Qed.

(** Without the secret a run of the script ends at once. *)
Lemma script_needs_key
        (fuel : nat) (inp : Inputs) (raw : RawSession) (r : R) :
  in_secret inp = None ->
  script json_loads fuel inp raw r =
  Halted (mkPage (init_session_state raw) r
                 [Ev (St_error missing_key_error)]).
Proof. intros K. unfold script. rewrite K. reflexivity. Qed.

(** X15.  A run in which nothing was clicked and nothing submitted leaves
    the session state it found and calls nothing: it only draws the page,
    the list of addresses when there is one and then the transcript, message
    by message in order. *)
Theorem idle_run_keeps_state
        (fuel : nat) (inp : Inputs) (s : Session) (r : R) key :
  in_secret inp = Some key -> in_create inp = false -> in_add inp = false ->
  in_chat inp = None \/ in_chat inp = Some EmptyString ->
  script json_loads fuel inp (stored s) r =
  Finished
    (mkPage s r
       (Ev (St_success key_loaded)
        :: email_display (email_list s) ++ map Ev (history (messages s)))).
Proof.
  intros K C A I. rewrite (script_no_click _ _ _ _ _ K C A).
  unfold run_handler, on_chat_input.
  destruct I as [-> | ->]; simpl; unfold absorb; simpl;
    rewrite app_nil_r; reflexivity.
Qed.

(** X16.  What a run shows of the conversation is what the next run
    shows: when a run with no provisioning ends, however its prompt cycle
    went, an idle run from the state it leaves draws the same chat bubbles
    in the same order. *)
Theorem rerun_shows_same_bubbles
        (fuel fuel' : nat) (inp idle : Inputs) (s : Session) (r : R)
        key key' (p : Page R) :
  in_secret inp = Some key -> in_create inp = false -> in_add inp = false ->
  page_of (script json_loads fuel inp (stored s) r) = Some p ->
  in_secret idle = Some key' -> in_create idle = false ->
  in_add idle = false -> in_chat idle = None ->
  exists p',
    script json_loads fuel' idle (stored (pg_session p)) (pg_remote p)
    = Finished p'
    /\ bubbles (pg_items p') = bubbles (pg_items p)
    /\ pg_session p' = pg_session p.
Proof.
  intros K C A P K' C' A' I'.
  rewrite (idle_run_keeps_state_aux fuel' idle (pg_session p) (pg_remote p)
             key' K' C' A' I').
  eexists. split; [reflexivity|]. split; [|reflexivity]. simpl.
  rewrite bubbles_app, bubbles_email_display, bubbles_history. simpl.
  rewrite (script_no_click _ _ _ _ _ K C A) in P.
  unfold run_handler in P.
  assert (B : forall w',
             world_of (on_chat_input json_loads fuel (in_chat inp)
                                     (mkWorld s r [])) = Some w' ->
             bubbles_agree (mkWorld s r []) w').
  { intros w'. unfold on_chat_input.
    destruct (in_chat inp) as [prompt|].
    - destruct (truthy prompt).
      + apply bubbles_cycle.
      + intros E. injection E as <-. apply bubbles_agree_refl.
    - intros E. injection E as <-. apply bubbles_agree_refl. }
  assert (G : forall w',
             bubbles_agree (mkWorld s r []) w' ->
             history (messages (session w'))
             = bubbles (pg_items
                          (absorb
                             (mkPage s r
                                (Ev (St_success key_loaded)
                                 :: email_display (email_list s)
                                 ++ map Ev (history (messages s)))) w'))).
  { intros w' (evs & new & T & M & F). simpl in T, M. simpl.
    rewrite !bubbles_app, bubbles_email_display, bubbles_history. simpl.
    rewrite T, bubbles_events, F, M. unfold history. apply map_app. }
  simpl in P. revert P.
  destruct (on_chat_input json_loads fuel (in_chat inp) (mkWorld s r []))
    as [[] w'|e w'|w'|]; simpl; intros P; try discriminate;
    injection P as <-; exact (G w' (B w' eq_refl)).
Qed.

Lemma add_email_run (a : string) (w : World R) :
  truthy a = true ->
  add_email a w =
  Done tt (mkWorld (with_emails [a] (session w)) (remote w)
                   (trace w ++ [add_email_event a])).
Proof.
  intros T. unfold add_email, add_email_event. rewrite T. reflexivity.
Qed.

Lemma on_chat_input_emails fuel submitted (w w' : World R) :
  world_of (on_chat_input json_loads fuel submitted w) = Some w' ->
  email_list (session w') = email_list (session w).
Proof.
  unfold on_chat_input. destruct submitted as [prompt|].
  2:{ intros E. injection E as <-. reflexivity. }
  destruct (truthy prompt).
  2:{ intros E. injection E as <-. reflexivity. }
  pose proof (cycle_sessions fuel prompt w) as S.
  destruct (chat_input_handler json_loads fuel prompt w)
    as [[] w1|e w1|w1|]; intros E; try discriminate; injection E as <-.
  - destruct S as (reply & ->). reflexivity.
  - rewrite S. reflexivity.
  - destruct S as (-> & _). reflexivity.
Qed.

(** X17.  An address added in a run is on the page of that same run: the
    list is drawn after the "Add Email" handler, with the new address last,
    and whatever the prompt cycle of that run then does, the address stays
    in the session state. *)
Theorem added_address_is_listed
        (fuel : nat) (inp : Inputs) (s : Session) (r : R) key (p : Page R) :
  in_secret inp = Some key -> in_create inp = false ->
  in_add inp = true -> truthy (in_email inp) = true ->
  page_of (script json_loads fuel inp (stored s) r) = Some p ->
  In (St_json (email_list s ++ [in_email inp])) (pg_items p)
  /\ email_list (pg_session p) = email_list s ++ [in_email inp].
Proof.
  intros K C A T. unfold script. rewrite K, C, A, init_stored.
  cbv zeta. unfold when_clicked.
  unfold run_handler at 1. unfold ret at 1.
  unfold run_handler at 1. rewrite (add_email_run _ _ T).
  unfold absorb at 1 2, show. simpl.
  assert (D : In (St_json (email_list s ++ [in_email inp]))
                 (email_display (email_list s ++ [in_email inp]))).
  { destruct (email_list s); simpl; auto. }
  unfold run_handler.
  match goal with
  | |- context [on_chat_input json_loads fuel (in_chat inp) ?w0] =>
      pose proof (on_chat_input_emails fuel (in_chat inp) w0) as E;
      destruct (on_chat_input json_loads fuel (in_chat inp) w0)
        as [[] w'|e w'|w'|]
  end; simpl; intros P; try discriminate; injection P as <-;
    (split; [|exact (E _ eq_refl)]); simpl; do 2 right;
    rewrite <- ?app_assoc; apply in_or_app; left; exact D.
Qed.

(** X18.  Nothing is rolled back after a failure: when a prompt cycle ends
    by an exception and the next one ends normally, the transcript holds
    the prompt that failed, without a reply, directly followed by the new
    prompt and its reply. *)
Theorem failed_prompt_stays
        (fuel fuel' : nat) (prompt prompt' : string) (e : Exn)
        (w w1 w2 : World R) :
  chat_input_handler json_loads fuel prompt w = Raised e w1 ->
  chat_input_handler json_loads fuel' prompt' w1 = Done tt w2 ->
  exists reply,
    messages (session w2)
    = messages (session w)
        ++ [user_message prompt; user_message prompt';
            assistant_message reply].
Proof.
  intros F D.
  pose proof (cycle_sessions fuel prompt w) as S1. rewrite F in S1.
  pose proof (cycle_sessions fuel' prompt' w1) as S2. rewrite D in S2.
  destruct S2 as (reply & S2). exists reply. rewrite S2, S1. simpl.
  rewrite <- !app_assoc. reflexivity.
Qed.

(** ** Runs that stay local *)

Lemma page_calls_app (a b : list PageItem) :
  page_calls (a ++ b) = page_calls a ++ page_calls b.
Proof. unfold page_calls. apply flat_map_app. Qed.

Lemma page_calls_events (evs : list Event) :
  page_calls (map Ev evs) = filter is_api evs.
Proof.
  induction evs as [|e evs IH]; simpl; [reflexivity|].
  rewrite IH. destruct (is_api e); reflexivity.
Qed.

Lemma page_calls_history (msgs : list Message) :
  page_calls (map Ev (history msgs)) = [].
Proof. induction msgs as [|m msgs IH]; simpl; [reflexivity | exact IH]. Qed.

Lemma page_calls_email_display (l : list string) :
  page_calls (email_display l) = [].
Proof. destruct l; reflexivity. Qed.

Lemma create_stays_local (inp : Inputs) (s : Session) (r : R) :
  in_create inp = false \/ blank (in_context inp) = true ->
  exists evs,
    when_clicked (in_create inp) (provision (in_context inp))
                 (mkWorld s r [])
    = Done tt (mkWorld s r evs)
    /\ filter is_api evs = [].
Proof.
  unfold when_clicked. destruct (in_create inp).
  - intros [H|B]; [discriminate|]. rewrite (provision_blank _ _ B).
    exists [St_warning empty_context_warning]. split; reflexivity.
  - intros _. exists []. split; reflexivity.
Qed.

Lemma add_stays_local (inp : Inputs) (s : Session) (r : R) :
  exists l evs,
    when_clicked (in_add inp) (add_email (in_email inp)) (mkWorld s r [])
    = Done tt (mkWorld (with_emails l s) r evs)
    /\ filter is_api evs = [].
Proof.
  unfold when_clicked. destruct (in_add inp).
  - destruct (truthy (in_email inp)) eqn:T.
    + exists [in_email inp], [add_email_event (in_email inp)]. split.
      * apply (add_email_run _ (mkWorld s r []) T).
      * unfold add_email_event. rewrite T. reflexivity.
    + exists [], [St_warning "Please enter an email address."].
      split; [|reflexivity]. unfold add_email. rewrite T.
      unfold emit, with_emails. simpl. rewrite app_nil_r. destruct s.
      reflexivity.
  - exists [], []. split; [|reflexivity].
    unfold ret, with_emails. rewrite app_nil_r. destruct s. reflexivity.
Qed.

Lemma chat_stays_local fuel submitted (w : World R) :
  truthy_opt submitted = false \/ handles (session w) = None ->
  on_chat_input json_loads fuel submitted w = Done tt w
  \/ on_chat_input json_loads fuel submitted w
     = Stopped (mkWorld (session w) (remote w)
                        (trace w ++ [St_error no_assistant_error])).
Proof.
  unfold on_chat_input, truthy_opt. destruct submitted as [prompt|].
  2:{ intros _. left. reflexivity. }
  destruct (truthy prompt).
  2:{ intros _. left. reflexivity. }
  intros [H|H]; [discriminate|]. right. apply handler_guard, H.
Qed.

(** X19.  A run of the script reaches the service only through a
    provisioning or a prompt cycle: without the secret, or with the context
    blank or its button not clicked and with no prompt submitted or a
    handle missing, the run ends at its last line or at an [st.stop()],
    has made no remote call, and leaves the handles and the transcript as it
    found them, whatever was typed or clicked for the list of addresses. *)
Theorem local_run_makes_no_call
        (fuel : nat) (inp : Inputs) (raw : RawSession) (r : R) :
  stays_local inp raw ->
  exists p,
    (script json_loads fuel inp raw r = Finished p
     \/ script json_loads fuel inp raw r = Halted p)
    /\ pg_remote p = r
    /\ page_calls (pg_items p) = []
    /\ assistant_id (pg_session p) = assistant_id (init_session_state raw)
    /\ thread_id (pg_session p) = thread_id (init_session_state raw)
    /\ messages (pg_session p) = messages (init_session_state raw).
Proof.
  unfold stays_local. intros Hl.
  remember (script json_loads fuel inp raw r) as o eqn:Eo.
  unfold script in Eo. destruct (in_secret inp) as [key|].
  2:{ subst o. eexists. split; [right; reflexivity|]. repeat split. }
  destruct Hl as [H|[Hc Hp]]; [discriminate|]. cbv zeta in Eo.
  set (s0 := init_session_state raw) in *.
  destruct (create_stays_local inp s0 r Hc) as (e1 & E1 & A1).
  unfold run_handler at 1 in Eo. unfold show at 1 in Eo. simpl in Eo.
  rewrite E1 in Eo.
  destruct (add_stays_local inp s0 r) as (l & e2 & E2 & A2).
  unfold run_handler at 1 in Eo. unfold absorb at 1 2 in Eo. simpl in Eo.
  rewrite E2 in Eo.
  unfold run_handler, absorb, show in Eo. simpl in Eo.
  assert (Hp' : truthy_opt (in_chat inp) = false
                \/ handles (session (mkWorld (with_emails l s0) r [])) = None).
  { destruct Hp as [Hp|Hp]; [left; exact Hp | right].
    unfold handles in *. simpl. exact Hp. }
  destruct (chat_stays_local fuel (in_chat inp) _ Hp') as [E3|E3];
    rewrite E3 in Eo; subst o; eexists;
    (split; [first [left; reflexivity | right; reflexivity]|]); simpl;
    (split; [reflexivity|]);
    (split; [|repeat split]);
    rewrite ?page_calls_app, ?page_calls_history, ?page_calls_email_display,
      ?page_calls_events, ?A1, ?A2; reflexivity.
Qed.

(** ** The order of the remote calls *)

Lemma filter_api_turns tid rids :
  filter is_api (turns tid rids)
  = map (fun rid => Api (RunsRetrieve tid rid)) rids.
Proof.
  induction rids as [|rid rids IH]; simpl; [reflexivity|]. now rewrite IH.
Qed.

Lemma tool_round_calls fuel tid run (w w' : World R) :
  world_of (tool_round json_loads fuel tid run w) = Some w' ->
  exists evs,
    trace w' = trace w ++ evs /\ one_submission tid (filter is_api evs).
Proof.
  destruct (status run =? "requires_action") eqn:St.
  2:{ unfold tool_round. rewrite St. intros H. injection H as <-.
      exists []. rewrite app_nil_r. split; [reflexivity | left; reflexivity]. }
  apply String.eqb_eq in St.
  destruct (required_action run) as [calls|] eqn:Rq.
  2:{ unfold tool_round, tool_calls_of. rewrite St, Rq. simpl.
      intros H. injection H as <-. exists []. rewrite app_nil_r.
      split; [reflexivity | left; reflexivity]. }
  rewrite (tool_round_run _ _ _ _ _ _ St Rq). unfold bind at 1.
  pose proof (local_dispatch json_loads calls [] w) as L.
  destruct (dispatch json_loads calls [] w) as [outs w1|e w1|w1|];
    try discriminate.
  - destruct (L w1 eq_refl) as (_ & _ & evs & A & C).
    apply count_zero_filter_nil in C. unfold added in A.
    unfold bind, api, ret.
    destruct (runs_submit_tool_outputs tid (run_id run) outs (remote w1))
      as [[e|run'] r2]; simpl; intros H; injection H as <-; simpl;
      exists (evs ++ [Api (RunsSubmit tid (run_id run) outs)]);
      (split; [rewrite A, app_assoc; reflexivity|]);
      rewrite filter_app, C; right; eexists; eexists; reflexivity.
  - intros H. injection H as <-.
    destruct (L w1 eq_refl) as (_ & _ & evs & A & C).
    apply count_zero_filter_nil in C. exists evs. split; [exact A|].
    left. exact C.
  - intros H. injection H as <-.
    destruct (L w1 eq_refl) as (_ & _ & evs & A & C).
    apply count_zero_filter_nil in C. exists evs. split; [exact A|].
    left. exact C.
Qed.

(** X20.  The remote calls of a prompt cycle come in one fixed order: the
    user message, the run, retrieve queries, at most one submission of tool
    outputs, the list of messages.  However the cycle ends, the calls it has
    made are the beginning of such a sequence, and all of it when the cycle
    ends normally. *)
Theorem cycle_protocol
        (fuel : nat) (prompt : string) (w w' : World R) aid tid :
  handles (session w) = Some (aid, tid) ->
  world_of (chat_input_handler json_loads fuel prompt w) = Some w' ->
  exists evs rids submission rest,
    trace w' = trace w ++ evs
    /\ one_submission tid submission
    /\ filter is_api evs ++ rest
       = cycle_calls aid tid prompt rids submission
    /\ (chat_input_handler json_loads fuel prompt w = Done tt w' ->
        rest = []).
Proof.
  intros H. rewrite (handler_run _ _ _ _ _ _ H). unfold bind.
  rewrite start_cycle_run. cbv zeta.
  destruct (messages_create tid "user" prompt (remote w)) as [[e|u] r1].
  { intros E. injection E as <-. eexists. exists [], [].
    eexists. split; [reflexivity|]. split; [left; reflexivity|].
    split; [reflexivity | discriminate]. }
  destruct (runs_create tid aid r1) as [[e|run0] r2].
  { intros E. injection E as <-. eexists. exists [], [].
    eexists. split; [simpl; rewrite <- app_assoc; reflexivity|].
    split; [left; reflexivity|]. split; [reflexivity | discriminate]. }
  match goal with
  | |- context [poll fuel tid run0 ?w0] =>
      pose proof (poll_shape fuel tid run0 w0) as Ps;
      destruct (poll fuel tid run0 w0) as [run w1|e w1|w1|]
  end; try discriminate.
  2:{ intros E. injection E as <-.
      destruct (Ps _ eq_refl) as (rids & T & _).
      eexists. exists rids, []. eexists.
      split; [rewrite T; simpl; rewrite <- !app_assoc; reflexivity|].
      split; [left; reflexivity|].
      split; [|discriminate]. simpl. rewrite filter_api_turns.
      unfold cycle_calls. simpl. reflexivity. }
  2:{ intros E. injection E as <-.
      destruct (Ps _ eq_refl) as (rids & T & _).
      eexists. exists rids, []. eexists.
      split; [rewrite T; simpl; rewrite <- !app_assoc; reflexivity|].
      split; [left; reflexivity|].
      split; [|discriminate]. simpl. rewrite filter_api_turns.
      unfold cycle_calls. simpl. reflexivity. }
  destruct (Ps _ eq_refl) as (rids & T & _). simpl in T.
  pose proof (tool_round_calls fuel tid run w1) as Tc.
  destruct (tool_round json_loads fuel tid run w1) as [[] w2|e w2|w2|];
    try discriminate.
  2:{ intros E. injection E as <-.
      destruct (Tc _ eq_refl) as (ev2 & T2 & O2).
      eexists. exists rids, (filter is_api ev2). eexists.
      split; [rewrite T2, T; rewrite <- !app_assoc; reflexivity|].
      split; [exact O2|]. split; [|discriminate].
      rewrite !filter_app, filter_api_turns. unfold cycle_calls. simpl.
      rewrite <- !app_assoc. reflexivity. }
  2:{ intros E. injection E as <-.
      destruct (Tc _ eq_refl) as (ev2 & T2 & O2).
      eexists. exists rids, (filter is_api ev2). eexists.
      split; [rewrite T2, T; rewrite <- !app_assoc; reflexivity|].
      split; [exact O2|]. split; [|discriminate].
      rewrite !filter_app, filter_api_turns. unfold cycle_calls. simpl.
      rewrite <- !app_assoc. reflexivity. }
  destruct (Tc _ eq_refl) as (ev2 & T2 & O2).
  rewrite final_fetch_run. cbv zeta.
  assert (G : forall tail,
             filter is_api tail = [Api (MessagesList tid)] ->
             exists rest,
               filter is_api
                 (([St_chat "user" prompt;
                    Api (MessagesCreate tid "user" prompt)]
                   ++ [Api (RunsCreate tid aid);
                       St_spinner "Assistant is thinking..."])
                  ++ turns tid rids ++ ev2 ++ tail) ++ rest
               = cycle_calls aid tid prompt rids (filter is_api ev2)
               /\ rest = []).
  { intros tail Ht. exists []. split; [|reflexivity].
    rewrite !filter_app, filter_api_turns, Ht, app_nil_r.
    unfold cycle_calls. simpl. reflexivity. }
  destruct (messages_list tid (remote w2)) as [[e|data] r'].
  { intros E. injection E as <-.
    destruct (G [Api (MessagesList tid)] eq_refl) as (rest & Gr & _).
    eexists. exists rids, (filter is_api ev2), rest.
    split; [simpl; rewrite T2, T; rewrite <- !app_assoc; reflexivity|].
    split; [exact O2|]. split; [exact Gr | discriminate]. }
  destruct (first_text data) as [e|v]; intros E; injection E as <-.
  - destruct (G [Api (MessagesList tid)] eq_refl) as (rest & Gr & _).
    eexists. exists rids, (filter is_api ev2), rest.
    split; [simpl; rewrite T2, T; rewrite <- !app_assoc; reflexivity|].
    split; [exact O2|]. split; [exact Gr | discriminate].
  - destruct (G [Api (MessagesList tid); St_chat "assistant" v] eq_refl)
      as (rest & Gr & Gn).
    eexists. exists rids, (filter is_api ev2), rest.
    split; [simpl; rewrite T2, T; rewrite <- !app_assoc; reflexivity|].
    split; [exact O2|]. split; [exact Gr | intros _; exact Gn].
Qed.

End More.

(** ** A whole cycle against a script *)

Lemma start_cycle_scripted
      (prefix : list Step) (last : Step) (rest : list Step)
      (fuel : nat) (aid tid prompt : string)
      (s : Session) (ids : list string) (thread : list ThreadMessage)
      (tr : list Event) :
  Forall polling_step prefix ->
  in_polling (status (step_run last)) = false ->
  List.length prefix <= fuel ->
  start_cycle fuel aid tid prompt
    (mkWorld s (mkScripted ids (prefix ++ last :: rest) thread) tr)
  = Done (step_run last)
         (mkWorld
            (with_message (user_message prompt) s)
            (mkScripted ids rest
               (posted (prefix ++ [last])
                       (mkThreadMessage "user" [TextBlock prompt] :: thread)))
            (tr ++ opening aid tid prompt ++ flat_map (query_of tid) prefix)).
Proof.
  intros F Hlast Hfuel. rewrite start_cycle_run. cbv zeta. simpl.
  destruct prefix as [|st more]; simpl.
  - rewrite poll_exit by exact Hlast.
    unfold posted. simpl. rewrite !app_nil_r, <- app_assoc. reflexivity.
  - inversion F as [|? ? Hst F']; subst. simpl in Hfuel.
    rewrite (poll_scripted tid last rest more Hlast F' st fuel)
      by (assumption || lia).
    rewrite posted_cons. simpl. rewrite <- !app_assoc. reflexivity.
Qed.

Lemma scripted_cycle
        (json_loads : string -> option json)
        (prefix : list Step) (last : Step) (rest : list Step)
        (fuel : nat) (aid tid prompt : string)
        (s : Session) (ids : list string) (thread : list ThreadMessage)
        (tr : list Event) m more reply blocks :
  handles s = Some (aid, tid) ->
  Forall polling_step prefix ->
  in_polling (status (step_run last)) = false ->
  status (step_run last) <> "requires_action" ->
  List.length prefix <= fuel ->
  posted (prefix ++ [last])
         (mkThreadMessage "user" [TextBlock prompt] :: thread) = m :: more ->
  tm_content m = TextBlock reply :: blocks ->
  chat_input_handler json_loads fuel prompt
    (mkWorld s (mkScripted ids (prefix ++ last :: rest) thread) tr)
  = Done tt
      (mkWorld
         (with_message (assistant_message reply)
                       (with_message (user_message prompt) s))
         (mkScripted ids rest (m :: more))
         (tr ++ opening aid tid prompt ++ flat_map (query_of tid) prefix
          ++ [Api (MessagesList tid); St_chat "assistant" reply])).
Proof.
  intros H F Hlast Hna Hfuel Hp Hm.
  rewrite (handler_run json_loads fuel prompt
             (mkWorld s (mkScripted ids (prefix ++ last :: rest) thread) tr)
             aid tid H).
  rewrite (bind_done _ _ _ _ _
             (start_cycle_scripted prefix last rest fuel aid tid prompt
                s ids thread tr F Hlast Hfuel)).
  rewrite (bind_done _ _ _ _ _ (tool_round_skip json_loads fuel tid _ _ Hna)).
  rewrite final_fetch_run. cbv zeta. simpl. rewrite Hp. simpl. rewrite Hm.
  rewrite <- !app_assoc. reflexivity.
Qed.

(** X21.  A whole cycle against a scripted run that leaves the polling
    set with a status other than [requires_action]: given as many turns as
    the polling prefix is long, the handler ends normally, having appended
    the prompt and then the text of whatever message is newest in the
    thread at that point (the assistant's reply if the script has posted
    one, the prompt itself if it has posted nothing), and having read the
    script up to that status and no further. *)
Theorem scripted_cycle_completes
        (json_loads : string -> option json)
        (prefix : list Step) (last : Step) (rest : list Step)
        (fuel : nat) (aid tid prompt : string)
        (s : Session) (ids : list string) (thread : list ThreadMessage)
        (tr : list Event) m more reply blocks :
  handles s = Some (aid, tid) ->
  Forall polling_step prefix ->
  in_polling (status (step_run last)) = false ->
  status (step_run last) <> "requires_action" ->
  List.length prefix <= fuel ->
  posted (prefix ++ [last])
         (mkThreadMessage "user" [TextBlock prompt] :: thread) = m :: more ->
  tm_content m = TextBlock reply :: blocks ->
  chat_input_handler json_loads fuel prompt
    (mkWorld s (mkScripted ids (prefix ++ last :: rest) thread) tr)
  = Done tt
      (mkWorld
         (with_message (assistant_message reply)
                       (with_message (user_message prompt) s))
         (mkScripted ids rest (m :: more))
         (tr ++ opening aid tid prompt ++ flat_map (query_of tid) prefix
          ++ [Api (MessagesList tid); St_chat "assistant" reply])).
Proof. apply scripted_cycle. Qed.

(** X22.  On the scripted service the transcript stays the mirror of the
    thread through a cycle without tool calls in which the assistant posts
    exactly one text, and that with the last status: if the transcript
    was the thread, oldest first, before the cycle, it is so after it. *)
Theorem mirror_preserved
        (json_loads : string -> option json)
        (prefix : list Step) (last : Step) (rest : list Step)
        (fuel : nat) (aid tid prompt reply : string)
        (s : Session) (ids : list string) (thread : list ThreadMessage)
        (tr : list Event) :
  handles s = Some (aid, tid) ->
  Forall polling_step prefix ->
  flat_map step_posts prefix = [] ->
  in_polling (status (step_run last)) = false ->
  status (step_run last) <> "requires_action" ->
  step_posts last = [mkThreadMessage "assistant" [TextBlock reply]] ->
  List.length prefix <= fuel ->
  mirrors thread (messages s) ->
  exists w',
    chat_input_handler json_loads fuel prompt
      (mkWorld s (mkScripted ids (prefix ++ last :: rest) thread) tr)
    = Done tt w'
    /\ mirrors (sc_thread (remote w')) (messages (session w')).
Proof.
  intros H F Hq Hlast Hna Hpost Hfuel Hmir.
  assert (Hp : posted (prefix ++ [last])
                      (mkThreadMessage "user" [TextBlock prompt] :: thread)
               = mkThreadMessage "assistant" [TextBlock reply]
                 :: mkThreadMessage "user" [TextBlock prompt] :: thread).
  { unfold posted. rewrite flat_map_app, Hq. simpl. rewrite app_nil_r, Hpost.
    reflexivity. }
  eexists. split.
  - apply (scripted_cycle json_loads prefix last rest fuel aid tid prompt
             s ids thread tr _ _ reply [] H F Hlast Hna Hfuel Hp).
    reflexivity.
  - unfold mirrors in *. simpl. rewrite !map_app, Hmir. reflexivity.
Qed.

(** ** The further properties on sample data *)

Import MoreExamples.

Lemma provision_half_done_witness :
  exists w',
    provision "FAQ" short_of_ids = Raised (APIError "script exhausted") w'
    /\ session w'
       = mkSession (Some "asst_1") (Some "thread_0")
                   [user_message "hi"; assistant_message "hello"]
                   ["a@example.com"]
    /\ handles (session w') = Some ("asst_1", "thread_0").
Proof.
  destruct (provision_half_done
              "FAQ" short_of_ids "file_1"
              (mkScripted ["asst_1"] [] []) "asst_1" (mkScripted [] [] [])
              (APIError "script exhausted") (mkScripted [] [] [])
              ltac:(reflexivity) ltac:(reflexivity) ltac:(reflexivity)
              ltac:(reflexivity))
    as (w' & P & S & _ & G).
  exists w'. split; [exact P|]. split; [exact S|].
  apply (G "thread_0"); reflexivity.
Defined.

Lemma provision_calls_witness :
  exists evs,
    trace renewed = trace renewing ++ evs
    /\ count_events is_api evs <= 3
    /\ count_events is_api evs = count_events is_creation evs.
Proof.
  apply (provision_calls "FAQ" renewing renewed).
  vm_compute. reflexivity.
Defined.

Lemma bubbles_follow_transcript_witness :
  exists evs new,
    trace answered = trace answering ++ evs
    /\ messages (session answered) = messages (session answering) ++ new
    /\ filter is_chat evs = history new.
Proof.
  apply (bubbles_follow_transcript Flat.loads 10 ask answering answered).
  vm_compute. reflexivity.
Defined.

Lemma poll_turns_witness :
  exists rids,
    trace waited = trace waiting ++ turns "thread_1" rids
    /\ List.length rids <= 10
    /\ count_events is_sleep (turns "thread_1" rids)
       = count_events is_retrieve (turns "thread_1" rids)
    /\ (forall rid rest, rids = rid :: rest -> rid = "run_1")
    /\ follows "thread_1" (run_in "queued") (remote waiting) rids
    /\ session waited = session waiting
    /\ (forall run',
          poll 10 "thread_1" (run_in "queued") waiting = Done run' waited ->
          in_polling (status run') = false).
Proof.
  apply (poll_turns 10 "thread_1" (run_in "queued") waiting waited).
  vm_compute. reflexivity.
Defined.

Lemma cycle_waits_forever_witness :
  chat_input_handler Flat.loads 1000 ask stalled = OutOfFuel.
Proof.
  apply (cycle_waits_forever Flat.loads ask stalled "asst_1" "thread_1" tt 0
           (mkRun "run_1" "queued" None) 1).
  - intros tid rid r. exists (mkRun "run_1" "queued" None), (S r).
    split; reflexivity.
  - reflexivity.
  - reflexivity.
  - reflexivity.
  - reflexivity.
Defined.

Lemma readable_mail_call : readable Flat.loads mail_call.
Proof.
  intros _. exists (JString "a@example.com", JString "S", JString "B").
  vm_compute. reflexivity.
Qed.

Lemma emails_before_failure_witness :
  tool_round Flat.loads 10 "thread_1"
             (run_asking [mail_call; short_call; other_call]) asking_badly
  = Raised (KeyError "body")
      (mkWorld (session asking_badly) (remote asking_badly)
         (trace asking_badly
          ++ flat_map (call_events Flat.loads) [mail_call] ++ [info_event])).
Proof.
  apply (emails_before_failure
           Flat.loads 10 "thread_1"
           (run_asking [mail_call; short_call; other_call]) asking_badly
           [mail_call] [other_call] short_call (KeyError "body")).
  - reflexivity.
  - reflexivity.
  - constructor; [exact readable_mail_call | constructor].
  - reflexivity.
  - vm_compute. reflexivity.
Defined.

Lemma emails_before_submission_witness :
  tool_round Flat.loads 10 "thread_1" (run_asking [mail_call])
             (mkWorld ready tt [])
  = Raised (APIError "Connection error.")
      (mkWorld ready tt
         (flat_map (call_events Flat.loads) [mail_call]
          ++ [Api (RunsSubmit "thread_1" "run_1" [output_of mail_call])])).
Proof.
  apply (emails_before_submission
           Flat.loads 10 "thread_1" (run_asking [mail_call])
           (mkWorld ready tt []) [mail_call]
           (APIError "Connection error.") tt).
  - reflexivity.
  - reflexivity.
  - constructor; [exact readable_mail_call | constructor].
  - reflexivity.
Defined.

Lemma empty_batch_submitted_witness :
  tool_round Flat.loads 10 "thread_1" (run_asking [other_call]) asking
  = Done tt
      (mkWorld (session asking) (remote asking)
               [Api (RunsSubmit "thread_1" "run_1" [])]).
Proof.
  rewrite (empty_batch_submitted Flat.loads 10 "thread_1"
             (run_asking [other_call]) asking [other_call]
             ltac:(reflexivity) ltac:(reflexivity) ltac:(reflexivity)).
  reflexivity.
Defined.

Lemma dispatch_one_errors_witness :
  dispatch_one loads_more garbled_call [] asking
  = Raised JSONDecodeError
           (mkWorld (session asking) (remote asking) [info_event])
  /\ dispatch_one loads_more list_call [] asking
     = Raised TypeError
              (mkWorld (session asking) (remote asking) [info_event])
  /\ dispatch_one loads_more empty_call [] asking
     = Raised (KeyError "to")
              (mkWorld (session asking) (remote asking) [info_event])
  /\ dispatch_one loads_more short_call [] asking
     = Raised (KeyError "body")
              (mkWorld (session asking) (remote asking) [info_event]).
Proof.
  split; [|split; [|split]].
  - apply (proj1 (dispatch_one_errors loads_more garbled_call [] asking
                    ltac:(reflexivity))).
    vm_compute. reflexivity.
  - apply (proj1 (proj2 (dispatch_one_errors loads_more list_call [] asking
                           ltac:(reflexivity))) (JArray [])).
    + vm_compute. reflexivity.
    + exact I.
  - apply (proj2 (proj2 (dispatch_one_errors loads_more empty_call [] asking
                           ltac:(reflexivity))) []).
    + vm_compute. reflexivity.
    + reflexivity.
  - apply (proj2 (proj2 (dispatch_one_errors loads_more short_call [] asking
                           ltac:(reflexivity)))
                 [("to", JString "a@example.com"); ("subject", JString "S")]).
    + vm_compute. reflexivity.
    + reflexivity.
Defined.

Lemma final_fetch_errors_witness :
  final_fetch "thread_1" (thread_world [])
  = Raised IndexError
           (mkWorld ready (mkScripted [] [] [])
                    [Api (MessagesList "thread_1")])
  /\ final_fetch "thread_1" (thread_world [bare_message])
     = Raised IndexError
              (mkWorld ready (mkScripted [] [] [bare_message])
                       [Api (MessagesList "thread_1")])
  /\ final_fetch "thread_1" (thread_world [picture_message])
     = Raised AttributeError
              (mkWorld ready (mkScripted [] [] [picture_message])
                       [Api (MessagesList "thread_1")]).
Proof.
  split; [|split].
  - apply (proj1 (final_fetch_errors (client := scripted_client)
                    "thread_1" (thread_world [])
                    [] (mkScripted [] [] []) ltac:(reflexivity))).
    reflexivity.
  - apply (proj1 (proj2 (final_fetch_errors
                           (client := scripted_client) "thread_1" (thread_world [bare_message])
                           [bare_message] (mkScripted [] [] [bare_message])
                           ltac:(reflexivity))) bare_message []); reflexivity.
  - apply (proj2 (proj2 (final_fetch_errors
                           (client := scripted_client) "thread_1" (thread_world [picture_message])
                           [picture_message]
                           (mkScripted [] [] [picture_message]) ltac:(reflexivity)))
                 picture_message [] "file_9" [TextBlock "See the picture."]);
      reflexivity.
Defined.

Lemma provision_then_prompt_witness :
  exists reply,
    messages (session renewed_and_asked)
    = [user_message ask; assistant_message reply]
    /\ email_list (session renewed_and_asked) = ["a@example.com"].
Proof.
  apply (provision_then_prompt Flat.loads 10 "FAQ" ask
           renewing renewed renewed_and_asked).
  - reflexivity.
  - vm_compute. reflexivity.
  - vm_compute. reflexivity.
Defined.

Lemma idle_run_keeps_state_witness :
  script Flat.loads 10 no_input (stored chatting) answerer
  = Finished
      (mkPage chatting answerer
         (Ev (St_success key_loaded)
          :: email_display (email_list chatting)
          ++ map Ev (history (messages chatting)))).
Proof.
  apply (idle_run_keeps_state Flat.loads 10 no_input chatting answerer
           "sk-test"); try reflexivity.
  left. reflexivity.
Defined.

Lemma rerun_shows_same_bubbles_witness :
  exists p',
    script Flat.loads 10 no_input (stored (pg_session asked_page))
           (pg_remote asked_page)
    = Finished p'
    /\ bubbles (pg_items p') = bubbles (pg_items asked_page)
    /\ pg_session p' = pg_session asked_page.
Proof.
  apply (rerun_shows_same_bubbles Flat.loads 10 10 asking_input no_input
           chatting answerer "sk-test" "sk-test" asked_page);
    first [vm_compute; reflexivity | reflexivity].
Defined.

Lemma added_address_is_listed_witness :
  In (St_json ["a@example.com"; "b@example.com"]) (pg_items added_page)
  /\ email_list (pg_session added_page) = ["a@example.com"; "b@example.com"].
Proof.
  apply (added_address_is_listed Flat.loads 10 adding_input chatting answerer
           "sk-test" added_page);
    first [vm_compute; reflexivity | reflexivity].
Defined.

Lemma scripted_cycle_completes_witness :
  chat_input_handler Flat.loads 10 ask answering = Done tt answered.
Proof.
  apply (scripted_cycle_completes
           Flat.loads
           [mkStep [] (run_in "queued"); mkStep [] (run_in "in_progress")]
           (reply_step "It is in the FAQ.") [] 10 "asst_1" "thread_1" ask
           ready [] [] []
           (mkThreadMessage "assistant" [TextBlock "It is in the FAQ."])
           [mkThreadMessage "user" [TextBlock ask]]
           "It is in the FAQ." []).
  - reflexivity.
  - repeat constructor.
  - reflexivity.
  - discriminate.
  - simpl. lia.
  - reflexivity.
  - reflexivity.
Defined.

Lemma failed_prompt_stays_witness :
  exists reply,
    messages (session recovered)
    = messages (session stumbling)
        ++ [user_message ask; user_message "And now?";
            assistant_message reply].
Proof.
  apply (failed_prompt_stays Flat.loads 10 10 ask "And now?"
           (KeyError "body") stumbling stumbled recovered).
  - vm_compute. reflexivity.
  - vm_compute. reflexivity.
Defined.

Lemma local_run_makes_no_call_witness :
  exists p,
    (script Flat.loads 10 first_visit empty_state answerer = Finished p
     \/ script Flat.loads 10 first_visit empty_state answerer = Halted p)
    /\ pg_remote p = answerer
    /\ page_calls (pg_items p) = []
    /\ assistant_id (pg_session p) = None
    /\ thread_id (pg_session p) = None
    /\ messages (pg_session p) = [].
Proof.
  apply (local_run_makes_no_call Flat.loads 10 first_visit empty_state
           answerer).
  right. split; right; reflexivity.
Defined.

Lemma cycle_protocol_witness :
  exists evs rids submission rest,
    trace asked_for_tools = trace asking ++ evs
    /\ one_submission "thread_1" submission
    /\ filter is_api evs ++ rest
       = cycle_calls "asst_1" "thread_1" ask rids submission
    /\ (chat_input_handler Flat.loads 10 ask asking = Done tt asked_for_tools
        -> rest = []).
Proof.
  apply (cycle_protocol Flat.loads 10 ask asking asked_for_tools
           "asst_1" "thread_1").
  - reflexivity.
  - vm_compute. reflexivity.
Defined.

Lemma mirror_preserved_witness :
  exists w',
    chat_input_handler Flat.loads 10 ask answering = Done tt w'
    /\ mirrors (sc_thread (remote w')) (messages (session w')).
Proof.
  apply (mirror_preserved
           Flat.loads
           [mkStep [] (run_in "queued"); mkStep [] (run_in "in_progress")]
           (reply_step "It is in the FAQ.") [] 10 "asst_1" "thread_1" ask
           "It is in the FAQ." ready [] [] []).
  - reflexivity.
  - repeat constructor.
  - reflexivity.
  - reflexivity.
  - discriminate.
  - reflexivity.
  - simpl. lia.
  - reflexivity.
Defined.
